(** * matchms: mass derivation, annotation validation and the filter pipeline

    A shallow embedding of

      - [matchms/filtering/filter_utils/derive_precursor_mz_and_parent_mass.py]
      - [matchms/filtering/require_annotation.py]

    and of the [SpectrumProcessor] / [ProcessingReport] behaviour that
    [tests/filtering/test_spectrum_processor.py] exercises.

    Python values are dynamically typed, so metadata values are a sum type
    and every operation that Python would reject raises an exception in the
    model.  Numbers (Python [int], [float] and numpy scalars alike) are read
    as rationals.  Each function returns, next to its outcome, the trace of
    what it did to the outside world: metadata reads, calls of external
    collaborators and log records. *)

From Stdlib Require Import QArith Qabs Sorted.
From stdpp Require Import gmap strings list.

Open Scope string_scope.
Open Scope list_scope.

(** ** Python values *)

Inductive value : Type :=
| VNone
| VNum (q : Q)
| VStr (s : string).

Inductive exn : Type :=
| TypeError
| ZeroDivisionError
| IndexError.

Inductive level : Type := INFO | WARNING | ERROR.

(** What a filter does besides returning: [Spectrum.get], [Spectrum.clone],
    a call of an external collaborator, a log record (format and arguments). *)
Inductive event : Type :=
| EvGet (key : string)
| EvClone
| EvCall (fn : string) (args : list value)
| EvLog (lvl : level) (fmt : string) (args : list value).

Inductive outcome (A : Type) : Type :=
| Return (a : A)
| Raise (e : exn).
Arguments Return {A} a.
Arguments Raise {A} e.

(** ** The trace-and-exception monad *)

Definition M (A : Type) : Type := (list event * outcome A)%type.

Definition trace {A} (m : M A) : list event := fst m.
Definition out {A} (m : M A) : outcome A := snd m.

Definition M_ret_def {A} (a : A) : M A := ([], Return a).

Definition M_bind_def {A B} (f : A -> M B) (m : M A) : M B :=
  match snd m with
  | Return a => (fst m ++ fst (f a), snd (f a))
  | Raise e => (fst m, Raise e)
  end.

#[global] Instance M_ret : MRet M := @M_ret_def.
#[global] Instance M_bind : MBind M := @M_bind_def.

Definition emit (e : event) : M unit := ([e], Return tt).
Definition raise {A} (e : exn) : M A := ([], Raise e).

Definition log (lvl : level) (fmt : string) (args : list value) : M unit :=
  emit (EvLog lvl fmt args).

(** A call of an external collaborator [fn]: recorded, then its result. *)
Definition call {A} (fn : string) (args : list value) (result : A) : M A :=
  emit (EvCall fn args);; mret result.

(** ** Python operators on values *)

Definition is_None (v : value) : bool :=
  match v with VNone => true | _ => false end.

(** [a == b] *)
Definition py_eq (a b : value) : bool :=
  match a, b with
  | VNone, VNone => true
  | VNum x, VNum y => Qeq_bool x y
  | VStr x, VStr y => String.eqb x y
  | _, _ => false
  end.

(** Arithmetic on numbers; any operand that is [None] or text raises
    [TypeError].  (Python repeats a text multiplied by an [int]; in both
    derivation functions such a product is next an operand of [-] or [+]
    with a number, which raises [TypeError] with no event in between, so the
    product raises here.) *)
Definition py_arith (f : Q -> Q -> Q) (a b : value) : M value :=
  match a, b with
  | VNum x, VNum y => mret (VNum (f x y))
  | _, _ => raise TypeError
  end.

Definition py_add : value -> value -> M value := py_arith Qplus.
Definition py_sub : value -> value -> M value := py_arith Qminus.
Definition py_mul : value -> value -> M value := py_arith Qmult.

(** [a / b].  A zero divisor raises, as Python's own numbers do; numpy
    scalars return [inf] or [nan] there, which rationals lack.  No statement
    below divides by zero. *)
Definition py_div (a b : value) : M value :=
  match a, b with
  | VNum x, VNum y =>
      if Qeq_bool y 0 then raise ZeroDivisionError else mret (VNum (x / y))
  | _, _ => raise TypeError
  end.

(** [abs(a)] *)
Definition py_abs (a : value) : M value :=
  match a with
  | VNum x => mret (VNum (Qabs x))
  | _ => raise TypeError
  end.

(** [a[:n]] *)
Definition py_slice_to (n : nat) (a : value) : M value :=
  match a with
  | VStr s => mret (VStr (String.substring 0 n s))
  | _ => raise TypeError
  end.

(** ** Spectrum (external type): peaks and a metadata mapping *)

Record Spectrum : Type := mkSpectrum {
  mz : list Q;
  intensities : list Q;
  metadata : gmap string value
}.

(** [spectrum.get(key)], default [None] *)
Definition Spectrum_get (s : Spectrum) (key : string) : M value :=
  emit (EvGet key);; mret (default VNone (metadata s !! key)).

(** [spectrum.set(key, value)] *)
Definition Spectrum_set (s : Spectrum) (key : string) (v : value) : Spectrum :=
  mkSpectrum (mz s) (intensities s) (<[key := v]> (metadata s)).

(** [spectrum.clone()]: an independent copy, equal as a value *)
Definition Spectrum_clone (s : Spectrum) : M Spectrum :=
  emit EvClone;; mret s.

(** ** External collaborators of the mass derivation

    [matchms.constants.PROTON_MASS], [_clean_adduct], [load_known_adducts]
    (a table with columns [adduct], [mass_multiplier], [correction_mass]) and
    [get_multiplier_and_mass_from_adduct] live outside the files embedded
    here; they are parameters. *)

Record AdductEntry : Type := mkAdduct {
  adduct : string;
  mass_multiplier : Q;
  correction_mass : Q
}.

Class MassCollaborators : Type := {
  PROTON_MASS : Q;
  _clean_adduct : value -> value;
  load_known_adducts : list AdductEntry;
  get_multiplier_and_mass_from_adduct : value -> option Q * option Q
}.

Definition of_optional (o : option Q) : value :=
  match o with Some q => VNum q | None => VNone end.

(** [adduct in list(known_adducts["adduct"])] *)
Definition py_in_column (a : value) (known_adducts : list AdductEntry) : bool :=
  existsb (fun e => py_eq (VStr (adduct e)) a) known_adducts.

(** [known_adducts.loc[known_adducts["adduct"] == adduct, column].values] *)
Definition loc_values (known_adducts : list AdductEntry) (a : value)
    (column : AdductEntry -> Q) : list Q :=
  map column (filter (fun e => py_eq (VStr (adduct e)) a = true) known_adducts).

(** [values[0]] *)
Definition first_value (values : list Q) : M value :=
  match values with
  | q :: _ => mret (VNum q)
  | [] => raise IndexError
  end.

(** ** derive_precursor_mz_and_parent_mass.py *)

Definition _is_valid_charge (charge : value) : bool :=
  negb (is_None charge) && negb (py_eq charge (VNum 0)).

Definition _get_charge (spectrum : Spectrum) : M value :=
  charge ← Spectrum_get spectrum "charge";
  if _is_valid_charge charge then mret charge
  else
    ionmode ← Spectrum_get spectrum "ionmode";
    if py_eq ionmode (VStr "positive") then
      log INFO ("Missing charge entry, but positive ionmode detected. "
                ++ "Consider prior run of `correct_charge()` filter.")%string [];;
      mret (VNum 1)
    else
      ionmode ← Spectrum_get spectrum "ionmode";
      if py_eq ionmode (VStr "negative") then
        log INFO ("Missing charge entry, but negative ionmode detected. "
                  ++ "Consider prior run of `correct_charge()` filter.")%string [];;
        mret (VNum (-1))
      else
        log WARNING
          ("Missing charge and ionmode entries. "
           ++ "Consider prior run of `derive_ionmode()` and `correct_charge()` filters.")%string
          [];;
        mret (VNum 0).

(** The [else] branch passes the literal text ["adduct"], not the variable. *)
Definition _get_multiplier_and_correction_mass_from_adduct `{MassCollaborators}
    (adduct : value) : M (value * value) :=
  adduct ← call "_clean_adduct" [adduct] (_clean_adduct adduct);
  known_adducts ← call "load_known_adducts" [] load_known_adducts;
  if py_in_column adduct known_adducts then
    multiplier ← first_value (loc_values known_adducts adduct mass_multiplier);
    correction_mass ← first_value (loc_values known_adducts adduct correction_mass);
    mret (multiplier, correction_mass)
  else
    r ← call "get_multiplier_and_mass_from_adduct" [VStr "adduct"]
           (get_multiplier_and_mass_from_adduct (VStr "adduct"));
    mret (of_optional (fst r), of_optional (snd r)).

(** In the two derivations an inner [option] carries the early [return] of
    the adduct branch: [Some v] has returned [v], [None] falls through. *)
Definition derive_parent_mass_from_precursor_mz `{MassCollaborators}
    (spectrum : option Spectrum) (estimate_from_adduct : bool) : M value :=
  match spectrum with
  | None => mret VNone
  | Some spectrum =>
    precursor_mz ← Spectrum_get spectrum "precursor_mz";
    if is_None precursor_mz then
      log WARNING "Missing precursor m/z to derive parent mass." [];;
      mret VNone
    else
      charge ← _get_charge spectrum;
      returned ←
        (if estimate_from_adduct then
           adduct ← Spectrum_get spectrum "adduct";
           mc ← _get_multiplier_and_correction_mass_from_adduct adduct;
           let multiplier := fst mc in
           let correction_mass := snd mc in
           if negb (is_None correction_mass) && negb (is_None multiplier) then
             d ← py_sub precursor_mz correction_mass;
             parent_mass ← py_div d multiplier;
             mret (Some parent_mass)
           else mret None
         else mret None);
      match returned with
      | Some parent_mass => mret parent_mass
      | None =>
        if _is_valid_charge charge then
          protons_mass ← py_mul (VNum PROTON_MASS) charge;
          a ← py_abs charge;
          precursor_mass ← py_mul precursor_mz a;
          parent_mass ← py_sub precursor_mass protons_mass;
          mret parent_mass
        else mret VNone
      end
  end.

Definition derive_precursor_mz_from_parent_mass `{MassCollaborators}
    (spectrum : option Spectrum) : M value :=
  let estimate_from_adduct := true in
  match spectrum with
  | None => mret VNone
  | Some spectrum =>
    parent_mass ← Spectrum_get spectrum "parent_mass";
    if is_None parent_mass then
      log WARNING "Missing parent mass to derive precursor mz." [];;
      mret VNone
    else
      returned ←
        (if estimate_from_adduct then
           adduct ← Spectrum_get spectrum "adduct";
           mc ← _get_multiplier_and_correction_mass_from_adduct adduct;
           let multiplier := fst mc in
           let correction_mass := snd mc in
           if negb (is_None correction_mass) && negb (is_None multiplier) then
             p ← py_mul parent_mass multiplier;
             precursor_mz ← py_add p correction_mass;
             mret (Some precursor_mz)
           else mret None
         else mret None);
      match returned with
      | Some precursor_mz => mret precursor_mz
      | None =>
        charge ← _get_charge spectrum;
        if _is_valid_charge charge then
          protons_mass ← py_mul (VNum PROTON_MASS) charge;
          precursor_mass ← py_add parent_mass protons_mass;
          a ← py_abs charge;
          precursor_mz ← py_div precursor_mass a;
          mret precursor_mz
        else
          log ERROR ("Precursor mz could not be derived from parent mass, "
                     ++ "since charge and adduct were missing")%string [];;
          mret VNone
      end
  end.

(** ** External collaborators of the annotation validator

    The structural predicates and conversions of [matchms.metadata_utils]. *)

Class StructureCollaborators : Type := {
  is_valid_smiles : value -> bool;
  is_valid_inchikey : value -> bool;
  is_valid_inchi : value -> bool;
  convert_smiles_to_inchi : value -> value;
  convert_inchi_to_inchikey : value -> value
}.

(** ** require_annotation.py *)

Definition require_annotation `{StructureCollaborators}
    (spectrum_in : option Spectrum) : M (option Spectrum) :=
  match spectrum_in with
  | None => mret None
  | Some spectrum_in =>
    spectrum ← Spectrum_clone spectrum_in;
    smiles ← Spectrum_get spectrum "smiles";
    inchi ← Spectrum_get spectrum "inchi";
    inchikey ← Spectrum_get spectrum "inchikey";
    valid ← call "is_valid_smiles" [smiles] (is_valid_smiles smiles);
    if negb valid then
      log INFO "Removed spectrum since smiles is not valid. Incorrect smiles = %s" [smiles];;
      mret None
    else
    valid ← call "is_valid_inchikey" [inchikey] (is_valid_inchikey inchikey);
    if negb valid then
      log INFO "Removed spectrum since inchikey is not valid. Incorrect inchikey = %s"
        [inchikey];;
      mret None
    else
    valid ← call "is_valid_inchi" [inchi] (is_valid_inchi inchi);
    if negb valid then
      log INFO "Removed spectrum since inchi is not valid. Incorrect inchi = %s" [inchi];;
      mret None
    else
    (* check if inchi matches the inchikey *)
    lhs ← py_slice_to 14 inchikey;
    k ← call "convert_inchi_to_inchikey" [inchi] (convert_inchi_to_inchikey inchi);
    rhs ← py_slice_to 14 k;
    if negb (py_eq lhs rhs) then
      expected ← call "convert_inchi_to_inchikey" [inchi] (convert_inchi_to_inchikey inchi);
      log WARNING ("Removed spectrum since inchi and inchikey do not match. "
                   ++ "inchi = %s, inchikey = %s, expected_inchikey = %s")%string
        [inchi; inchikey; expected];;
      mret None
    else
    (* check if smiles matches the inchikey *)
    lhs ← py_slice_to 14 inchikey;
    i ← call "convert_smiles_to_inchi" [smiles] (convert_smiles_to_inchi smiles);
    k ← call "convert_inchi_to_inchikey" [i] (convert_inchi_to_inchikey i);
    rhs ← py_slice_to 14 k;
    if negb (py_eq lhs rhs) then
      i ← call "convert_smiles_to_inchi" [smiles] (convert_smiles_to_inchi smiles);
      expected ← call "convert_inchi_to_inchikey" [i] (convert_inchi_to_inchikey i);
      log WARNING ("Removed spectrum since smiles does not match the inchikey. "
                   ++ "inchikey = %s, smiles = %s, expected_inchikey = %s")%string
        [inchikey; smiles; expected];;
      mret None
    else mret (Some spectrum)
  end.

(** ** The filter pipeline: [SpectrumProcessor] and [ProcessingReport]

    [matchms/SpectrumProcessor.py] is not among the embedded files; only its
    test file is.  The definitions of this module follow sections 4.1 to 4.3
    of the specification, and the test file where it pins a behaviour. *)

Module Pipeline.

Definition Params : Type := gmap string value.

(** Modelled from the spec: a filter, "pure function mapping one spectrum to
    a new spectrum or to nothing", with the name the report attributes to it
    (its [__name__]) and its keyword parameters. *)
Record FilterFunction : Type := mkFilter {
  fname : string;
  fcall : Params -> Spectrum -> option Spectrum
}.

(** Modelled from the spec: the FilterCatalog entry "(name, callable,
    ordinal, default_params | required_params)"; the ordinal is the position
    in [ALL_FILTERS]. *)
Record CatalogEntry : Type := mkEntry {
  entry_filter : FilterFunction;
  default_params : Params;
  required_params : list string
}.

(** Modelled from the spec: the catalog of known filters in canonical order
    and the named presets; their contents are parameters. *)
Class FilterCatalog : Type := {
  ALL_FILTERS : list CatalogEntry;
  PREDEFINED_PIPELINES : list (string * list (string * Params))
}.

(** Modelled from the spec: a configuration error, "fail immediately and
    loudly"; a raised Python exception with its class name and message. *)
Inductive raised : Type := Raised (class : string) (message : string).

(** Modelled from the spec: "ProcessingStep: canonical form (name, params)". *)
Record ProcessingStep : Type := mkStep {
  step_name : string;
  step_params : Params
}.

(** Modelled from the spec: a bound callable of [filters], known or custom. *)
Record BoundFilter : Type := mkBound {
  bound_name : string;
  is_custom : bool;
  bound_call : Spectrum -> option Spectrum
}.

(** Modelled from the spec: the state of [SpectrumProcessor], "an ordered set
    of resolved steps for known filters [...] plus a separate append-only
    sequence of custom (unregistered) filter bindings". *)
Record SpectrumProcessor : Type := mkProcessor {
  known_steps : list ProcessingStep;
  custom_filters : list BoundFilter
}.

Section Catalog.
Context `{FilterCatalog}.

(** Modelled from the spec: the name of a catalog entry. *)
Definition entry_name (e : CatalogEntry) : string := fname (entry_filter e).

(** Modelled from the spec: the catalog entry of a known filter name. *)
Definition find_entry (name : string) : option CatalogEntry :=
  List.find (fun e => String.eqb (entry_name e) name) ALL_FILTERS.

(** Modelled from the spec: the position of a name in a list of names. *)
Fixpoint index_of (name : string) (names : list string) : nat :=
  match names with
  | [] => 0
  | n :: rest => if String.eqb n name then 0 else S (index_of name rest)
  end.

(** Modelled from the spec: "the canonical ordinal assigned to every known
    filter", its position in [ALL_FILTERS]. *)
Definition ordinal (name : string) : nat :=
  index_of name (map entry_name ALL_FILTERS).

(** Modelled from the spec: [resolve(name, provided_params)], which "merges
    provided_params over stored defaults" and fails on an unknown name or on
    a required key that is not supplied. *)
Definition resolve (name : string) (provided : Params) : raised + ProcessingStep :=
  match find_entry name with
  | None => inl (Raised "ValueError" ("Unknown filter type: " ++ name))
  | Some e =>
      let merged : Params := provided ∪ default_params e in
      if forallb (fun k => bool_decide (is_Some (merged !! k))) (required_params e)
      then inr (mkStep name merged)
      else inl (Raised "AssertionError" ("Missing parameters for " ++ name))
  end.

(** Modelled from the spec: insertion into steps "kept sorted by catalog
    ordinal". *)
Fixpoint insert_by_ordinal (st : ProcessingStep) (steps : list ProcessingStep)
    : list ProcessingStep :=
  match steps with
  | [] => [st]
  | x :: rest =>
      if Nat.ltb (ordinal (step_name st)) (ordinal (step_name x))
      then st :: x :: rest
      else x :: insert_by_ordinal st rest
  end.

(** Modelled from the spec: "Known-name steps are inserted/replaced in
    ordinal position". *)
Definition put_step (st : ProcessingStep) (steps : list ProcessingStep)
    : list ProcessingStep :=
  insert_by_ordinal st
    (List.filter (fun x => negb (String.eqb (step_name x) (step_name st))) steps).

(** Modelled from the spec: the "step" argument of [add_filter], "a bare
    name, a (name, params) pair, or a (function, params) pair". *)
Inductive step : Type :=
| StepName (name : string)
| StepNameParams (name : string) (params : Params)
| StepFunction (function : FilterFunction) (params : Params).

(** Modelled from the spec: adding a known filter by name. *)
Definition add_matchms_filter (p : SpectrumProcessor) (name : string)
    (provided : Params) : raised + SpectrumProcessor :=
  match resolve name provided with
  | inl e => inl e
  | inr st => inr (mkProcessor (put_step st (known_steps p)) (custom_filters p))
  end.

(** Modelled from the spec: [add_custom_filter(function, params_or_none)]
    "appends to the custom sequence". *)
Definition add_custom_filter (p : SpectrumProcessor) (function : FilterFunction)
    (params : option Params) : SpectrumProcessor :=
  mkProcessor (known_steps p)
    (custom_filters p
     ++ [mkBound (fname function) true (fcall function (default ∅ params))]).

(** Modelled from the spec: [add_filter(step)]. *)
Definition add_filter (p : SpectrumProcessor) (st : step) : raised + SpectrumProcessor :=
  match st with
  | StepName name => add_matchms_filter p name ∅
  | StepNameParams name params => add_matchms_filter p name params
  | StepFunction function params => inr (add_custom_filter p function (Some params))
  end.

(** Modelled from the spec: [add_filter] for each step of a list, as a
    preset is seeded. *)
Fixpoint add_filters (p : SpectrumProcessor) (sts : list step) : raised + SpectrumProcessor :=
  match sts with
  | [] => inr p
  | st :: rest =>
      match add_filter p st with
      | inl e => inl e
      | inr p' => add_filters p' rest
      end
  end.

(** Modelled from the spec: [construct(preset_name_or_none)]; the message of
    the unknown preset is the one [test_unknown_keyword] looks for. *)
Definition construct (predefined_pipeline : option string) : raised + SpectrumProcessor :=
  match predefined_pipeline with
  | None => inr (mkProcessor [] [])
  | Some name =>
      match List.find (fun np => String.eqb (fst np) name) PREDEFINED_PIPELINES with
      | None => inl (Raised "ValueError" ("Unknown processing pipeline '" ++ name ++ "'"))
      | Some np =>
          add_filters (mkProcessor [] [])
            (map (fun sp => StepNameParams (fst sp) (snd sp)) (snd np))
      end
  end.

(** Modelled from the spec: a configuration, the calls a caller makes on a
    processor ("from a preset name and/or explicit/custom filter
    additions"), in order. *)
Inductive config_call : Type :=
| AddFilter (st : step)
| AddCustomFilter (function : FilterFunction) (params : option Params).

(** Modelled from the spec: the processor after the calls of a
    configuration; the first error aborts. *)
Fixpoint configure (p : SpectrumProcessor) (calls : list config_call)
    : raised + SpectrumProcessor :=
  match calls with
  | [] => inr p
  | AddFilter st :: rest =>
      match add_filter p st with
      | inl e => inl e
      | inr p' => configure p' rest
      end
  | AddCustomFilter function params :: rest =>
      configure (add_custom_filter p function params) rest
  end.

(** Modelled from the spec: [processing_steps], known filters only. *)
Definition processing_steps (p : SpectrumProcessor) : list ProcessingStep :=
  known_steps p.

(** Modelled from the spec: the bound callable of a resolved step. *)
Definition bind_step (st : ProcessingStep) : option BoundFilter :=
  match find_entry (step_name st) with
  | Some e => Some (mkBound (step_name st) false (fcall (entry_filter e) (step_params st)))
  | None => None
  end.

(** Modelled from the spec: [filters], "all known filters in ordinal order,
    followed by all custom filters in addition order". *)
Definition filters (p : SpectrumProcessor) : list BoundFilter :=
  omap bind_step (known_steps p) ++ custom_filters p.

(** The executor is written over any observer of the run ("an attached
    report"): [on_spectrum] sees each spectrum that enters the chain,
    [on_step] each before/after pair with the name of the filter. *)
Section Executor.
Context {R : Type}.
Context (on_spectrum : R -> R).
Context (on_step : R -> Spectrum -> option Spectrum -> string -> R).

(** Modelled from the spec: "applies each bound callable in order to the
    current spectrum value; a callable returning None halts the chain [...]
    Every step's before/after pair is forwarded". *)
Fixpoint run_filters (fs : list BoundFilter) (spectrum : Spectrum) (report : R)
    : option Spectrum * R :=
  match fs with
  | [] => (Some spectrum, report)
  | filter_func :: rest =>
      let spectrum_out := bound_call filter_func spectrum in
      let report := on_step report spectrum spectrum_out (bound_name filter_func) in
      match spectrum_out with
      | None => (None, report)
      | Some spectrum => run_filters rest spectrum report
      end
  end.

(** Modelled from the spec: [process_spectrum(spectrum)], which "fails
    immediately [...] if filters is empty", else applies the callables in
    order and halts at the first [None]; [test_no_filters] gives the class
    and the message of the error. *)
Definition process_spectrum_observed (p : SpectrumProcessor) (spectrum : Spectrum)
    (report : R) : raised + (option Spectrum * R) :=
  match filters p with
  | [] => inl (Raised "TypeError" "No filters to process")
  | fs => inr (run_filters fs spectrum (on_spectrum report))
  end.

(** Modelled from the spec: [process_spectrums], "collecting non-None results
    in input order"; an error of one spectrum aborts the batch. *)
Fixpoint process_spectrums_observed (p : SpectrumProcessor) (spectrums : list Spectrum)
    (report : R) : raised + (list Spectrum * R) :=
  match spectrums with
  | [] => inr ([], report)
  | s :: rest =>
      match process_spectrum_observed p s report with
      | inl e => inl e
      | inr (out, report) =>
          match process_spectrums_observed p rest report with
          | inl e => inl e
          | inr (outs, report) =>
              inr (match out with Some s' => s' :: outs | None => outs end, report)
          end
      end
  end.

End Executor.

(** Modelled from the spec: the counters of [ProcessingReport], keyed by
    filter name; an entry exists once it has been incremented. *)
Record ProcessingReport : Type := mkReport {
  counter_changed_field : gmap string nat;
  counter_added_field : gmap string nat;
  counter_removed_spectrums : gmap string nat;
  counter_number_processed : nat
}.

(** Modelled from the spec: a report at its creation. *)
Definition new_report : ProcessingReport := mkReport ∅ ∅ ∅ 0.

(** Modelled from the spec: the count of a name, "zero if absent". *)
Definition count (c : gmap string nat) (name : string) : nat :=
  default 0 (c !! name).

(** Modelled from the spec: one increment, [counter[name] += 1]. *)
Definition incr (name : string) (c : gmap string nat) : gmap string nat :=
  <[name := S (count c name)]> c.

(** Modelled from the spec: "the set of metadata keys present in after but
    absent in before (added)". *)
Definition added_keys (before after : Spectrum) : gset string :=
  dom (filter (fun kv => metadata before !! fst kv = None) (metadata after)).

(** Modelled from the spec: [key] is present in [before] with a value that
    differs from [v]. *)
Definition differs (before : Spectrum) (key : string) (v : value) : bool :=
  match metadata before !! key with
  | Some v0 => negb (py_eq v0 v)
  | None => false
  end.

(** Modelled from the spec: "the set present in both with differing values
    (changed)". *)
Definition changed_keys (before after : Spectrum) : gset string :=
  dom (filter (fun kv => differs before (fst kv) (snd kv) = true) (metadata after)).

(** Modelled from the spec: what [add_to_report(before, after, filter_name)]
    attributes to the filter name, "if after is None, increments the
    removed-spectrum counter for filter_name and stops (no field diff
    attempted); else computes the set of metadata keys present in after but
    absent in before (added) and the set present in both with differing
    values (changed), incrementing per-filter counters for each".  The
    increment of the processed counter, which section 4.3 puts first, is
    [count_processed]; the two together are [add_to_report_as_specified]. *)
Definition add_to_report (r : ProcessingReport) (before : Spectrum)
    (after : option Spectrum) (filter_name : string) : ProcessingReport :=
  match after with
  | None =>
      mkReport (counter_changed_field r) (counter_added_field r)
        (incr filter_name (counter_removed_spectrums r))
        (counter_number_processed r)
  | Some after =>
      mkReport
        (Nat.iter (size (changed_keys before after)) (incr filter_name)
           (counter_changed_field r))
        (Nat.iter (size (added_keys before after)) (incr filter_name)
           (counter_added_field r))
        (counter_removed_spectrums r)
        (counter_number_processed r)
  end.

(** Modelled from the spec: "increments the processed counter". *)
Definition count_processed (r : ProcessingReport) : ProcessingReport :=
  mkReport (counter_changed_field r) (counter_added_field r)
    (counter_removed_spectrums r) (S (counter_number_processed r)).

(** Modelled from the spec: [ProcessingReport.add_to_report(before, after,
    filter_name)] in the words of section 4.3, "increments the processed
    counter", then the removal or the field diff. *)
Definition add_to_report_as_specified (r : ProcessingReport) (before : Spectrum)
    (after : option Spectrum) (filter_name : string) : ProcessingReport :=
  add_to_report (count_processed r) before after filter_name.

(** Modelled from the spec: [process_spectrum] with a report attached.
    Every step is attributed to its filter; the processed counter goes up
    once for the spectrum, not once for each forwarded step, since
    [test_filter_spectrums_report] reads 3 in it after three spectra went
    through four filters each.  The run in which every forwarded step
    counts is [process_spectrums_as_specified]. *)
Definition process_spectrum (p : SpectrumProcessor) (spectrum : Spectrum)
    (report : ProcessingReport) : raised + (option Spectrum * ProcessingReport) :=
  process_spectrum_observed count_processed add_to_report p spectrum report.

(** Modelled from the spec: [process_spectrums(spectra, create_report)]. *)
Definition process_spectrums (p : SpectrumProcessor) (spectrums : list Spectrum)
    : raised + (list Spectrum * ProcessingReport) :=
  process_spectrums_observed count_processed add_to_report p spectrums new_report.

(** Modelled from the spec: the same batch run with the report that section
    4.3 describes. *)
Definition process_spectrums_as_specified (p : SpectrumProcessor)
    (spectrums : list Spectrum) : raised + (list Spectrum * ProcessingReport) :=
  process_spectrums_observed (fun r => r) add_to_report_as_specified p spectrums new_report.

(** Modelled from the spec: the executed filter sequence, the names
    forwarded to an observer that only lists them. *)
Definition executed (p : SpectrumProcessor) (spectrum : Spectrum)
    : raised + (option Spectrum * list string) :=
  process_spectrum_observed (fun l => l) (fun l _ _ name => l ++ [name]) p spectrum [].

End Catalog.
End Pipeline.

(** ** Notions the statements below are written with *)

(** What [spectrum.get(key)] returns. *)
Definition field (s : Spectrum) (key : string) : value :=
  default VNone (metadata s !! key).

(** The adduct of [s] resolves to the pair [(m, c)]: the lookup of the
    source returns a multiplier and a correction mass, neither [None]. *)
Definition adduct_resolves `{MassCollaborators} (s : Spectrum) (m c : Q) : Prop :=
  out (_get_multiplier_and_correction_mass_from_adduct (field s "adduct"))
  = Return (VNum m, VNum c).

Definition adduct_unresolved `{MassCollaborators} (s : Spectrum) : Prop :=
  forall m c, ~ adduct_resolves s m c.

(** The effective charge in the words of the specification: the [charge]
    field if it is present and nonzero, else +1 / -1 for an [ionmode] equal
    to "positive" / "negative", else 0. *)
Definition charge_present_and_nonzero (charge : value) : bool :=
  match charge with
  | VNone => false
  | VNum q => negb (Qeq_bool q 0)
  | VStr _ => true
  end.

(** [v] is the text [t]. *)
Definition is_text (v : value) (t : string) : bool :=
  match v with
  | VStr u => String.eqb u t
  | _ => false
  end.

Definition effective_charge (s : Spectrum) : value :=
  if charge_present_and_nonzero (field s "charge") then field s "charge"
  else if is_text (field s "ionmode") "positive" then VNum 1
  else if is_text (field s "ionmode") "negative" then VNum (-1)
  else VNum 0.

(** The charge is usable by the proton-correction formula: a nonzero number. *)
Definition nonzero_charge (s : Spectrum) (q : Q) : Prop :=
  effective_charge s = VNum q /\ ~ (q == 0)%Q.

(** The pair that the adduct lookup returns, as a pure function: the first
    row of the table whose adduct is the cleaned text, else what the
    interpreter of unknown adducts makes of the text ["adduct"]. *)
Definition adduct_pair `{MassCollaborators} (a : value) : value * value :=
  match List.find (fun e => py_eq (VStr (adduct e)) (_clean_adduct a)) load_known_adducts with
  | Some e => (VNum (mass_multiplier e), VNum (correction_mass e))
  | None =>
      let r := get_multiplier_and_mass_from_adduct (VStr "adduct") in
      (of_optional (fst r), of_optional (snd r))
  end.

(** The record that [derive_precursor_mz_from_parent_mass] logs when neither
    path applies. *)
Definition charge_and_adduct_missing : event :=
  EvLog ERROR ("Precursor mz could not be derived from parent mass, "
               ++ "since charge and adduct were missing")%string [].

(** The five checks of [require_annotation] in the words of the
    specification, and the order in which it lists them. *)
Inductive check : Type :=
| SmilesValid
| InchikeyValid
| InchiValid
| InchiMatchesInchikey
| SmilesMatchesInchikey.

Definition checks_in_order : list check :=
  [SmilesValid; InchikeyValid; InchiValid; InchiMatchesInchikey; SmilesMatchesInchikey].

(** The first 14 characters of a text. *)
Definition first14 (v : value) : string :=
  match v with
  | VStr t => String.substring 0 14 t
  | _ => ""
  end.

Definition check_holds `{StructureCollaborators} (s : Spectrum) (c : check) : bool :=
  let smiles := field s "smiles" in
  let inchi := field s "inchi" in
  let inchikey := field s "inchikey" in
  match c with
  | SmilesValid => is_valid_smiles smiles
  | InchikeyValid => is_valid_inchikey inchikey
  | InchiValid => is_valid_inchi inchi
  | InchiMatchesInchikey =>
      String.eqb (first14 inchikey) (first14 (convert_inchi_to_inchikey inchi))
  | SmilesMatchesInchikey =>
      String.eqb (first14 inchikey)
        (first14 (convert_inchi_to_inchikey (convert_smiles_to_inchi smiles)))
  end.

Definition first_failing `{StructureCollaborators} (s : Spectrum) : option check :=
  List.find (fun c => negb (check_holds s c)) checks_in_order.

(** The checks that a short-circuiting evaluation in the listed order
    evaluates: all up to and including the first that fails. *)
Fixpoint evaluated (holds : check -> bool) (cs : list check) : list check :=
  match cs with
  | [] => []
  | c :: rest => c :: (if holds c then evaluated holds rest else [])
  end.

(** The collaborator calls that evaluating one check makes. *)
Definition calls_of `{StructureCollaborators} (s : Spectrum) (c : check) : list event :=
  let smiles := field s "smiles" in
  let inchi := field s "inchi" in
  let inchikey := field s "inchikey" in
  match c with
  | SmilesValid => [EvCall "is_valid_smiles" [smiles]]
  | InchikeyValid => [EvCall "is_valid_inchikey" [inchikey]]
  | InchiValid => [EvCall "is_valid_inchi" [inchi]]
  | InchiMatchesInchikey => [EvCall "convert_inchi_to_inchikey" [inchi]]
  | SmilesMatchesInchikey =>
      [EvCall "convert_smiles_to_inchi" [smiles];
       EvCall "convert_inchi_to_inchikey" [convert_smiles_to_inchi smiles]]
  end.

(** The rejection that a failing check logs; the two matching checks
    compute the expected InChIKey once more for the message. *)
Definition rejection `{StructureCollaborators} (s : Spectrum) (c : check) : list event :=
  let smiles := field s "smiles" in
  let inchi := field s "inchi" in
  let inchikey := field s "inchikey" in
  match c with
  | SmilesValid =>
      [EvLog INFO "Removed spectrum since smiles is not valid. Incorrect smiles = %s"
         [smiles]]
  | InchikeyValid =>
      [EvLog INFO "Removed spectrum since inchikey is not valid. Incorrect inchikey = %s"
         [inchikey]]
  | InchiValid =>
      [EvLog INFO "Removed spectrum since inchi is not valid. Incorrect inchi = %s"
         [inchi]]
  | InchiMatchesInchikey =>
      calls_of s InchiMatchesInchikey
      ++ [EvLog WARNING
            ("Removed spectrum since inchi and inchikey do not match. "
             ++ "inchi = %s, inchikey = %s, expected_inchikey = %s")%string
            [inchi; inchikey; convert_inchi_to_inchikey inchi]]
  | SmilesMatchesInchikey =>
      calls_of s SmilesMatchesInchikey
      ++ [EvLog WARNING
            ("Removed spectrum since smiles does not match the inchikey. "
             ++ "inchikey = %s, smiles = %s, expected_inchikey = %s")%string
            [inchikey; smiles;
             convert_inchi_to_inchikey (convert_smiles_to_inchi smiles)]]
  end.

(** The contract of the structure collaborators that the slices [[:14]] of
    the source rely on: a valid InChIKey is a text, and the conversions of
    valid identifiers return texts. *)
Definition conversions_return_text `{StructureCollaborators} : Prop :=
  (forall v, is_valid_inchikey v = true -> exists t, v = VStr t)
  /\ (forall v, is_valid_inchi v = true -> exists t, convert_inchi_to_inchikey v = VStr t)
  /\ (forall v, is_valid_smiles v = true ->
        exists t, convert_inchi_to_inchikey (convert_smiles_to_inchi v) = VStr t).

(** The custom filters that a sequence of configuration calls adds, in the
    order of the calls. *)
Fixpoint customs_added (calls : list Pipeline.config_call) : list Pipeline.BoundFilter :=
  match calls with
  | [] => []
  | Pipeline.AddFilter (Pipeline.StepFunction function params) :: rest =>
      Pipeline.mkBound (Pipeline.fname function) true (Pipeline.fcall function params)
      :: customs_added rest
  | Pipeline.AddCustomFilter function params :: rest =>
      Pipeline.mkBound (Pipeline.fname function) true
        (Pipeline.fcall function (default ∅ params))
      :: customs_added rest
  | _ :: rest => customs_added rest
  end.

(** ** Sample data

    Concrete collaborators and spectra on which the statements below are
    exercised.  The adduct rows are rows of the matchms adduct table; the
    identifiers are those of methane and water; the pipeline filters are
    stand-ins that leave, on the fixture of the test file, the footprint its
    expected counters record. *)

Definition with_metadata (m : gmap string value) : Spectrum := mkSpectrum [] [] m.

Definition sample_adducts : list AdductEntry :=
  [ mkAdduct "[M+H]+" 1 (1007276 # 1000000);
    mkAdduct "[M+Na]+" 1 (22989218 # 1000000);
    mkAdduct "[2M+H]+" 2 (1007276 # 1000000);
    mkAdduct "[M-H]-" 1 (- (1007276 # 1000000)) ].

Definition sample_mass : MassCollaborators := {|
  PROTON_MASS := 100727645199076 # 100000000000000;
  _clean_adduct := fun a => a;
  load_known_adducts := sample_adducts;
  get_multiplier_and_mass_from_adduct := fun _ => (None, None)
|}.

(** precursor m/z 445.5 measured as [2M+H]+ in positive mode *)
Definition sample_dimer : Spectrum :=
  with_metadata (<["precursor_mz" := VNum (4455 # 10)]>
                 (<["adduct" := VStr "[2M+H]+"]>
                  (<["charge" := VNum 1]> ∅))).

(** no adduct, charge -2 *)
Definition sample_doubly_charged : Spectrum :=
  with_metadata (<["precursor_mz" := VNum 200]> (<["charge" := VNum (-2)]> ∅)).

(** no adduct, no charge, no ionmode *)
Definition sample_uncharged : Spectrum :=
  with_metadata (<["precursor_mz" := VNum 200]> (<["parent_mass" := VNum 199]> ∅)).

(** a sodium adduct with charge 1 *)
Definition sample_sodium : Spectrum :=
  with_metadata (<["precursor_mz" := VNum 300]>
                 (<["adduct" := VStr "[M+Na]+"]>
                  (<["charge" := VNum 1]> ∅))).

Definition methane_smiles : string := "C".
Definition methane_inchi : string := "InChI=1S/CH4/h1H4".
Definition methane_inchikey : string := "VNWKTOKETHGBQD-UHFFFAOYSA-N".
Definition water_smiles : string := "O".
Definition water_inchi : string := "InChI=1S/H2O/h1H2".
Definition water_inchikey : string := "XLYOFNOQVPJJNP-UHFFFAOYSA-N".

Definition sample_structures : StructureCollaborators := {|
  is_valid_smiles := fun v =>
    py_eq v (VStr methane_smiles) || py_eq v (VStr water_smiles);
  is_valid_inchikey := fun v =>
    match v with VStr t => Nat.eqb (String.length t) 27 | _ => false end;
  is_valid_inchi := fun v =>
    py_eq v (VStr methane_inchi) || py_eq v (VStr water_inchi);
  convert_smiles_to_inchi := fun v =>
    if py_eq v (VStr methane_smiles) then VStr methane_inchi
    else if py_eq v (VStr water_smiles) then VStr water_inchi
    else VNone;
  convert_inchi_to_inchikey := fun v =>
    if py_eq v (VStr methane_inchi) then VStr methane_inchikey
    else if py_eq v (VStr water_inchi) then VStr water_inchikey
    else VNone
|}.

Definition annotated_methane : Spectrum :=
  with_metadata (<["smiles" := VStr methane_smiles]>
                 (<["inchi" := VStr methane_inchi]>
                  (<["inchikey" := VStr methane_inchikey]> ∅))).

(** methane's SMILES and InChI with the InChIKey of water *)
Definition mismatched_methane : Spectrum :=
  with_metadata (<["smiles" := VStr methane_smiles]>
                 (<["inchi" := VStr methane_inchi]>
                  (<["inchikey" := VStr water_inchikey]> ∅))).

(** Modelled from the spec: stand-ins for the filters of the "minimal"
    preset and for [require_correct_ionmode], whose files are not embedded.
    Section 8 fixes what they do to the fixture: the two text charges are
    normalized, mass interpretation and ion-mode derivation add one field
    each, and the precursor m/z is the pepmass. *)
Definition make_charge_int : Pipeline.FilterFunction :=
  Pipeline.mkFilter "make_charge_int" (fun _ s =>
    match field s "charge" with
    | VStr "+1" => Some (Spectrum_set s "charge" (VNum 1))
    | VStr "-1" => Some (Spectrum_set s "charge" (VNum (-1)))
    | _ => Some s
    end).

(** Modelled from the spec: stand-in, moves [pepmass] to [precursor_mz]. *)
Definition interpret_pepmass : Pipeline.FilterFunction :=
  Pipeline.mkFilter "interpret_pepmass" (fun _ s =>
    match metadata s !! "pepmass" with
    | Some v => Some (mkSpectrum (mz s) (intensities s)
                        (<["precursor_mz" := v]> (delete "pepmass" (metadata s))))
    | None => Some s
    end).

(** Modelled from the spec: stand-in, adds an [ionmode] where there is none. *)
Definition derive_ionmode : Pipeline.FilterFunction :=
  Pipeline.mkFilter "derive_ionmode" (fun _ s =>
    match metadata s !! "ionmode" with
    | Some _ => Some s
    | None => Some (Spectrum_set s "ionmode" (VStr "n/a"))
    end).

(** Modelled from the spec: stand-in, leaves the fixture as it is. *)
Definition correct_charge : Pipeline.FilterFunction :=
  Pipeline.mkFilter "correct_charge" (fun _ s => Some s).

(** Modelled from the spec: stand-in, keeps positive and negative ion modes. *)
Definition require_correct_ionmode : Pipeline.FilterFunction :=
  Pipeline.mkFilter "require_correct_ionmode" (fun _ s =>
    if py_eq (field s "ionmode") (VStr "positive")
       || py_eq (field s "ionmode") (VStr "negative")
    then Some s else None).

(** Modelled from the spec: a catalog of the stand-ins in canonical order,
    with the "minimal" preset as [test_string_output] lists it. *)
Definition sample_catalog : Pipeline.FilterCatalog := {|
  Pipeline.ALL_FILTERS :=
    [ Pipeline.mkEntry make_charge_int ∅ [];
      Pipeline.mkEntry interpret_pepmass ∅ [];
      Pipeline.mkEntry derive_ionmode ∅ [];
      Pipeline.mkEntry correct_charge ∅ [];
      Pipeline.mkEntry require_correct_ionmode ∅ ["ion_mode_to_keep"] ];
  Pipeline.PREDEFINED_PIPELINES :=
    [ ("minimal", [ ("make_charge_int", ∅); ("interpret_pepmass", ∅);
                    ("derive_ionmode", ∅); ("correct_charge", ∅) ]) ]
|}.

(** The fixture [spectrums] of the test file. *)
Definition spectrums : list Spectrum :=
  [ with_metadata (<["charge" := VStr "+1"]> (<["pepmass" := VNum 100]> ∅));
    with_metadata (<["charge" := VStr "-1"]> (<["pepmass" := VNum 102]> ∅));
    with_metadata (<["charge" := VNum (-1)]> (<["pepmass" := VNum 104]> ∅)) ].

(** The custom filter of [test_adding_custom_filter]. *)
Definition nonsense_inchikey : Pipeline.FilterFunction :=
  Pipeline.mkFilter "nonsense_inchikey"
    (fun _ s => Some (Spectrum_set s "inchikey" (VStr "NONSENSE"))).

(** A second custom filter, to have two. *)
Definition nonsense_smiles : Pipeline.FilterFunction :=
  Pipeline.mkFilter "nonsense_smiles"
    (fun _ s => Some (Spectrum_set s "smiles" (VStr "NONSENSE"))).

(** What [SpectrumProcessor("minimal")] builds from [sample_catalog]. *)
Definition minimal_processor : Pipeline.SpectrumProcessor :=
  Pipeline.mkProcessor
    [ Pipeline.mkStep "make_charge_int" ∅; Pipeline.mkStep "interpret_pepmass" ∅;
      Pipeline.mkStep "derive_ionmode" ∅; Pipeline.mkStep "correct_charge" ∅ ]
    [].

(** A configuration that adds a custom filter before a known one. *)
Definition sample_calls : list Pipeline.config_call :=
  [ Pipeline.AddCustomFilter nonsense_inchikey None;
    Pipeline.AddFilter
      (Pipeline.StepNameParams "require_correct_ionmode"
         (<["ion_mode_to_keep" := VStr "both"]> ∅));
    Pipeline.AddFilter (Pipeline.StepFunction nonsense_smiles ∅) ].

(** ** Further notions *)


(** The trace of the adduct lookup: the canonicalizer, the table, and the
    interpreter of unknown adducts when the table has no such row. *)
Definition lookup_trace `{MassCollaborators} (a : value) : list event :=
  [EvCall "_clean_adduct" [a]; EvCall "load_known_adducts" []]
  ++ (if py_in_column (_clean_adduct a) load_known_adducts then []
      else [EvCall "get_multiplier_and_mass_from_adduct" [VStr "adduct"]]).

(** A log record. *)
Definition is_log (ev : event) : bool :=
  match ev with EvLog _ _ _ => true | _ => false end.


(** What a filter decided: kept, discarded, or an exception. *)
Definition verdict_of (o : outcome (option Spectrum)) : outcome bool :=
  match o with
  | Return (Some _) => Return true
  | Return None => Return false
  | Raise e => Raise e
  end.

(** The decision of [require_annotation] as a function of the three
    identifiers and of the collaborators' answers, slices included. *)
Definition annotation_verdict `{StructureCollaborators} (s : Spectrum) : outcome bool :=
  let smiles := field s "smiles" in
  let inchi := field s "inchi" in
  let inchikey := field s "inchikey" in
  if negb (is_valid_smiles smiles) then Return false
  else if negb (is_valid_inchikey inchikey) then Return false
  else if negb (is_valid_inchi inchi) then Return false
  else
    match inchikey, convert_inchi_to_inchikey inchi with
    | VStr k, VStr k1 =>
        if negb (String.eqb (String.substring 0 14 k) (String.substring 0 14 k1))
        then Return false
        else
          match convert_inchi_to_inchikey (convert_smiles_to_inchi smiles) with
          | VStr k2 =>
              if negb (String.eqb (String.substring 0 14 k) (String.substring 0 14 k2))
              then Return false
              else Return true
          | _ => Raise TypeError
          end
    | _, _ => Raise TypeError
    end.

(** The number of log records of a trace. *)
Definition log_records (t : list event) : nat := length (List.filter is_log t).

(** ** load_from_usi.py

    The importer asks a server for a spectrum and builds a [Spectrum] from
    the JSON it answers.  [requests.get] and the construction
    [Spectrum(np.array(mz_list), np.array(intensity_list), metadata)] are
    collaborators; a response is its status code and what [response.json()]
    makes of its body. *)

Module Usi.

(** A decoded JSON document; an object keeps its keys in order. *)
#[warnings="-register-all"] Inductive json : Type :=
| JNull
| JBool (b : bool)
| JNum (q : Q)
| JStr (s : string)
| JList (l : list json)
| JDict (d : list (string * json)).

(** What propagates out of the importer: the two Python errors its own
    operations raise, and whatever a collaborator raises. *)
Inductive raised : Type :=
| PyTypeError
| PyValueError
| Propagated (class : string).

Inductive event : Type :=
| HttpGet (url : string)
| Log (lvl : level) (msg : string).

(** [body] is [None] when [response.json()] raises [JSONDecodeError]. *)
Record Response : Type := mkResponse {
  status_code : Z;
  body : option json
}.

Class Collaborators : Type := {
  requests_get : string -> raised + Response;
  new_Spectrum : list json -> list json -> list (string * json) -> raised + Spectrum
}.

(** [d.get(key, None)] and [d[key]] of an object *)
Definition dict_get (d : list (string * json)) (key : string) : option json :=
  option_map snd (List.find (fun kv => String.eqb (fst kv) key) d).

(** [key in x] for a text [key] *)
Definition py_contains (key : string) (x : json) : raised + bool :=
  match x with
  | JDict d => inr (existsb (fun kv => String.eqb (fst kv) key) d)
  | JList l => inr (existsb (fun v => match v with JStr t => String.eqb t key | _ => false end) l)
  | JStr t => inr (match String.index 0 key t with Some _ => true | None => false end)
  | _ => inl PyTypeError
  end.

(** [x[key]] for a text [key]: lists and texts take integer indices only *)
Definition py_getitem (x : json) (key : string) : raised + json :=
  match x with
  | JDict d => match dict_get d key with
               | Some v => inr v
               | None => inl (Propagated "KeyError")
               end
  | _ => inl PyTypeError
  end.

(** The items that iterating [x] yields: the elements of a list, the
    characters of a text, the keys of an object. *)
Definition py_iter (x : json) : raised + list json :=
  match x with
  | JList l => inr l
  | JStr t => inr (map (fun c => JStr (String c EmptyString)) (String.list_ascii_of_string t))
  | JDict d => inr (map (fun kv => JStr (fst kv)) d)
  | _ => inl PyTypeError
  end.

(** [len(x)] *)
Definition py_len (x : json) : raised + nat :=
  match py_iter x with
  | inr items => inr (length items)
  | inl e => inl e
  end.

Fixpoint iter_all (rows : list json) : raised + list (list json) :=
  match rows with
  | [] => inr []
  | r :: rest =>
      match py_iter r with
      | inl e => inl e
      | inr items =>
          match iter_all rest with
          | inl e => inl e
          | inr others => inr (items :: others)
          end
      end
  end.

(** The first item of every row, if no row is exhausted. *)
Fixpoint heads (rows : list (list json)) : option (list json) :=
  match rows with
  | [] => Some []
  | [] :: _ => None
  | (x :: _) :: rest => option_map (cons x) (heads rest)
  end.

(** [zip(row_1, ..., row_n)]: tuples of items until a row is exhausted;
    [fuel] bounds their number. *)
Fixpoint zip_rows (fuel : nat) (rows : list (list json)) : list (list json) :=
  match fuel with
  | O => []
  | S fuel' =>
      match heads rows with
      | Some h => h :: zip_rows fuel' (map (@tail json) rows)
      | None => []
      end
  end.

(** [zip( *peaks )]: no argument yields nothing; an argument that is not
    iterable raises when [zip] is called. *)
Definition py_zip_star (peaks : json) : raised + list (list json) :=
  match py_iter peaks with
  | inl e => inl e
  | inr rows =>
      match iter_all rows with
      | inl e => inl e
      | inr [] => inr []
      | inr (first :: others) => inr (zip_rows (length first) (first :: others))
      end
  end.

(** The length of the shortest row, and [fuel] if that is less. *)
Definition shortest (rows : list (list json)) (fuel : nat) : nat :=
  fold_right (fun r acc => Nat.min (length r) acc) fuel rows.

(** The items at position [i] of every row. *)
Definition column (i : nat) (rows : list (list json)) : list json :=
  map (fun r => nth i r JNull) rows.

(** [a, b = tuples] *)
Definition unpack_two (tuples : list (list json)) : raised + (list json * list json) :=
  match tuples with
  | [a; b] => inr (a, b)
  | _ => inl PyValueError
  end.

Definition default_server : string := "https://metabolomics-usi.ucsd.edu".

Section Importer.
Context `{Collaborators}.

(** What follows [peaks = spectral_data["peaks"]] when there are peaks. *)
Definition build (spectral_data peaks : json) (metadata : list (string * json))
    : raised + option Spectrum :=
  match py_zip_star peaks with
  | inl e => inl e
  | inr tuples =>
      match unpack_two tuples with
      | inl e => inl e
      | inr (mz_list, intensity_list) =>
          match spectral_data with
          | JDict d =>
              let metadata :=
                metadata ++ [("precursor_mz", default JNull (dict_get d "precursor_mz"))] in
              match new_Spectrum mz_list intensity_list metadata with
              | inl e => inl e
              | inr s => inr (Some s)
              end
          | _ => inl (Propagated "AttributeError")
          end
      end
  end.

Definition load_from_usi (usi server : string) : list event * (raised + option Spectrum) :=
  let url := (server ++ "/json/?usi=" ++ usi)%string in
  let metadata := [("usi", JStr usi); ("server", JStr server)] in
  match requests_get url with
  | inl e => ([HttpGet url], inl e)
  | inr response =>
      if Z.eqb (status_code response) 404 then ([HttpGet url], inr None)
      else
        match body response with
        | None =>
            ([HttpGet url; Log WARNING "Failed to unpack json (JSONDecodeError)."],
             inr None)
        | Some spectral_data =>
            let no_data := ([HttpGet url;
                             Log INFO "Empty spectrum found (no data found). Will not be imported."],
                            inr None) in
            match spectral_data with
            | JNull => no_data
            | _ =>
                match py_contains "peaks" spectral_data with
                | inl e => ([HttpGet url], inl e)
                | inr false => no_data
                | inr true =>
                    match py_getitem spectral_data "peaks" with
                    | inl e => ([HttpGet url], inl e)
                    | inr peaks =>
                        match py_len peaks with
                        | inl e => ([HttpGet url], inl e)
                        | inr O =>
                            ([HttpGet url;
                              Log INFO ("Empty spectrum found (no peaks in 'peaks_json'). "
                                        ++ "Will not be imported.")%string],
                             inr None)
                        | inr (S _) => ([HttpGet url], build spectral_data peaks metadata)
                        end
                    end
                end
            end
        end
  end.

End Importer.
End Usi.

(** The sum of the counts of a counter. *)
Definition total (c : gmap string nat) : nat :=
  map_fold (fun _ v acc => (v + acc)%nat) 0%nat c.

(** A step of a filter that the catalog knows. *)
Definition known `{Pipeline.FilterCatalog} (st : Pipeline.ProcessingStep) : Prop :=
  is_Some (Pipeline.find_entry (Pipeline.step_name st)).

(** Steps in the order of the catalog, each filter at most once. *)
Definition in_catalog_order `{Pipeline.FilterCatalog}
    (steps : list Pipeline.ProcessingStep) : Prop :=
  StronglySorted
    (fun a b => (Pipeline.ordinal (Pipeline.step_name a)
                 < Pipeline.ordinal (Pipeline.step_name b))%nat)
    steps.

(** ** Further sample data *)

(** the dimer with a parent mass and no precursor m/z *)
Definition sample_dimer_parent : Spectrum :=
  with_metadata (<["parent_mass" := VNum 222]>
                 (<["adduct" := VStr "[2M+H]+"]>
                  (<["charge" := VNum 1]> ∅))).

(** the dimer with peaks and a name *)
Definition sample_dimer_with_peaks : Spectrum :=
  mkSpectrum [100%Q; 222%Q] [1%Q; (1 # 2)%Q]
    (<["compound_name" := VStr "dimer"]> (metadata sample_dimer)).


(** a charge that is still a text *)
Definition sample_text_charge : Spectrum :=
  with_metadata (<["charge" := VStr "+1"]>
                 (<["precursor_mz" := VNum 100]>
                  (<["parent_mass" := VNum 99]> ∅))).

(** negative mode, no charge *)
Definition sample_negative_mode : Spectrum :=
  with_metadata (<["precursor_mz" := VNum 200]> (<["ionmode" := VStr "negative"]> ∅)).


(** methane with another stereo and protonation layer in its key *)
Definition methane_inchikey_variant : string := "VNWKTOKETHGBQD-XXXXXXXXXX-N".

(** annotated methane with peaks *)
Definition annotated_methane_with_peaks : Spectrum :=
  mkSpectrum [16%Q] [1%Q] (metadata annotated_methane).

(** Structure collaborators whose conversion to an InChIKey fails. *)
Definition failing_conversion : StructureCollaborators := {|
  is_valid_smiles := is_valid_smiles (StructureCollaborators := sample_structures);
  is_valid_inchikey := is_valid_inchikey (StructureCollaborators := sample_structures);
  is_valid_inchi := is_valid_inchi (StructureCollaborators := sample_structures);
  convert_smiles_to_inchi :=
    convert_smiles_to_inchi (StructureCollaborators := sample_structures);
  convert_inchi_to_inchikey := fun _ => VNone
|}.

Definition json_number (j : Usi.json) : option Q :=
  match j with Usi.JNum q => Some q | _ => None end.

Definition json_value (j : Usi.json) : value :=
  match j with
  | Usi.JNum q => VNum q
  | Usi.JStr t => VStr t
  | _ => VNone
  end.

(** A server that answers every request with [response], and a
    construction that takes numbers for peaks. *)
Definition sample_importer (response : Usi.Response) : Usi.Collaborators := {|
  Usi.requests_get := fun _ => inr response;
  Usi.new_Spectrum := fun mz_list intensity_list metadata =>
    match mapM json_number mz_list, mapM json_number intensity_list with
    | Some mzs, Some ints =>
        inr (mkSpectrum mzs ints
               (list_to_map (map (fun kv => (fst kv, json_value (snd kv))) metadata)))
    | _, _ => inl (Usi.Propagated "ValueError")
    end
|}.

(** two peaks, the second row with a third item *)
Definition sample_document : list (string * Usi.json) :=
  [ ("n_peaks", Usi.JNum 2);
    ("peaks", Usi.JList [ Usi.JList [Usi.JNum 100; Usi.JNum 1];
                          Usi.JList [Usi.JNum 200; Usi.JNum (1 # 2); Usi.JNum 7] ]);
    ("precursor_mz", Usi.JNum 300) ].

Definition sample_usi : string := "mzspec:MASSBANK::accession:SM858102".

(** "minimal" with [require_correct_ionmode] added. *)
Definition ionmode_processor : Pipeline.SpectrumProcessor :=
  Pipeline.mkProcessor
    [ Pipeline.mkStep "make_charge_int" ∅; Pipeline.mkStep "interpret_pepmass" ∅;
      Pipeline.mkStep "derive_ionmode" ∅; Pipeline.mkStep "correct_charge" ∅;
      Pipeline.mkStep "require_correct_ionmode" (<["ion_mode_to_keep" := VStr "both"]> ∅) ]
    [].

(** * Properties *)

(** ** The monad *)

Lemma out_bind {A B} (m : M A) (f : A -> M B) :
  out (m ≫= f) = match out m with Return a => out (f a) | Raise e => Raise e end.
Proof. unfold out, mbind, M_bind, M_bind_def. destruct m as [t [a|e]]; reflexivity. Qed.

Lemma trace_bind {A B} (m : M A) (f : A -> M B) :
  trace (m ≫= f)
  = match out m with Return a => trace m ++ trace (f a) | Raise e => trace m end.
Proof. unfold out, trace, mbind, M_bind, M_bind_def. destruct m as [t [a|e]]; reflexivity. Qed.

Lemma out_get s k : out (Spectrum_get s k) = Return (field s k).
Proof. reflexivity. Qed.

Lemma out_call {A} fn args (r : A) : out (call fn args r) = Return r.
Proof. reflexivity. Qed.

Lemma out_log lvl fmt args : out (log lvl fmt args) = Return tt.
Proof. reflexivity. Qed.

Lemma out_ret {A} (a : A) : out (mret a) = Return a.
Proof. reflexivity. Qed.

Lemma last_bind {A B} (m : M A) (f : A -> M B) a x :
  out m = Return a ->
  last (trace (f a)) = Some x ->
  last (trace (m ≫= f)) = Some x.
Proof. intros Hm Hl. rewrite trace_bind, Hm, last_app, Hl. reflexivity. Qed.

Ltac out_simpl :=
  repeat (rewrite ?out_bind, ?out_get, ?out_call, ?out_log, ?out_ret; cbv beta iota).

(** Evaluation of a program whose collaborators' answers are known. *)
Ltac run :=
  cbn [mbind M_bind M_bind_def mret M_ret M_ret_def fst snd app out trace negb
       py_slice_to py_eq first14 raise
       List.find evaluated map concat check_holds calls_of rejection].

(** ** Values and fields *)

Lemma is_text_py_eq v t : py_eq v (VStr t) = is_text v t.
Proof. destruct v; reflexivity. Qed.

Lemma valid_charge_present_nonzero v :
  _is_valid_charge v = charge_present_and_nonzero v.
Proof. destruct v; reflexivity. Qed.

Lemma nonzero_divisor q : ~ (q == 0)%Q -> Qeq_bool q 0 = false.
Proof.
  intros Hq. destruct (Qeq_bool q 0) eqn:E; [|reflexivity].
  exfalso. apply Hq. apply Qeq_bool_iff. exact E.
Qed.

Lemma nonzero_valid q : ~ (q == 0)%Q -> _is_valid_charge (VNum q) = true.
Proof.
  intros Hq. unfold _is_valid_charge, py_eq, is_None. cbn [negb andb].
  rewrite (nonzero_divisor _ Hq). reflexivity.
Qed.

Lemma Qabs_nonzero q : ~ (q == 0)%Q -> ~ (Qabs q == 0)%Q.
Proof.
  intros Hq Ha. apply Hq. destruct (Qlt_le_dec q 0) as [Hl|Hl].
  - rewrite Qabs_neg in Ha by (apply Qlt_le_weak; exact Hl).
    rewrite <- (Qopp_involutive q), Ha. reflexivity.
  - rewrite Qabs_pos in Ha by exact Hl. exact Ha.
Qed.

Lemma field_set s k v k' :
  field (Spectrum_set s k v) k' = if decide (k = k') then v else field s k'.
Proof.
  unfold field, Spectrum_set. cbn [metadata]. destruct (decide (k = k')) as [->|Hk].
  - rewrite lookup_insert_eq. reflexivity.
  - rewrite lookup_insert_ne by exact Hk. reflexivity.
Qed.


Lemma get_charge_out s : out (_get_charge s) = Return (effective_charge s).
Proof.
  unfold _get_charge, effective_charge. out_simpl.
  rewrite valid_charge_present_nonzero.
  destruct (charge_present_and_nonzero _); [reflexivity|].
  out_simpl. rewrite !is_text_py_eq.
  destruct (is_text _ "positive"); [reflexivity|].
  out_simpl. rewrite !is_text_py_eq.
  destruct (is_text _ "negative"); reflexivity.
Qed.

(** ** Mass derivation *)

Section MassDerivation.
Context `{MassCollaborators}.

Lemma in_column_find a (tbl : list AdductEntry) :
  py_in_column a tbl = true ->
  exists e, List.find (fun e => py_eq (VStr (adduct e)) a) tbl = Some e
    /\ forall col, exists rest, loc_values tbl a col = col e :: rest.
Proof.
  unfold py_in_column, loc_values.
  induction tbl as [|x tbl IH]; cbn [existsb find]; [discriminate|].
  destruct (py_eq (VStr (adduct x)) a) eqn:E; cbn [orb].
  - intros _. exists x. split; [reflexivity|]. intros col.
    rewrite filter_cons. rewrite decide_True by exact E. cbn [map]. eauto.
  - intros Hin. destruct (IH Hin) as (e & Hf & Hl). exists e. split; [exact Hf|].
    intros col. rewrite filter_cons. rewrite decide_False by (rewrite E; discriminate).
    apply Hl.
Qed.

Lemma not_in_column_find a (tbl : list AdductEntry) :
  py_in_column a tbl = false ->
  List.find (fun e => py_eq (VStr (adduct e)) a) tbl = None.
Proof.
  unfold py_in_column. induction tbl as [|x tbl IH]; cbn [existsb find]; [reflexivity|].
  destruct (py_eq (VStr (adduct x)) a); cbn [orb]; [discriminate|exact IH].
Qed.

(** The lookup never raises ([values[0]] is only taken of a selection that
    the membership test has found non-empty) and returns [adduct_pair]. *)
Lemma lookup_out a :
  out (_get_multiplier_and_correction_mass_from_adduct a) = Return (adduct_pair a).
Proof.
  unfold _get_multiplier_and_correction_mass_from_adduct, adduct_pair. out_simpl.
  destruct (py_in_column (_clean_adduct a) load_known_adducts) eqn:E.
  - destruct (in_column_find _ _ E) as (e & Hf & Hl). rewrite Hf.
    destruct (Hl mass_multiplier) as (r1 & ->). destruct (Hl correction_mass) as (r2 & ->).
    cbn [first_value]. out_simpl. reflexivity.
  - rewrite (not_in_column_find _ _ E). out_simpl. reflexivity.
Qed.

(** Outside the table the answer does not depend on the adduct: the
    interpreter of unknown adducts is asked about the text ["adduct"]. *)
Lemma unknown_adducts_share_one_answer a b :
  py_in_column (_clean_adduct a) load_known_adducts = false ->
  py_in_column (_clean_adduct b) load_known_adducts = false ->
  adduct_pair a = adduct_pair b.
Proof.
  intros Ha Hb. unfold adduct_pair.
  rewrite (not_in_column_find _ _ Ha), (not_in_column_find _ _ Hb). reflexivity.
Qed.

Lemma resolves_pair s m c :
  adduct_resolves s m c <-> adduct_pair (field s "adduct") = (VNum m, VNum c).
Proof.
  unfold adduct_resolves. rewrite lookup_out.
  split; [intros [= E]; exact E|intros ->; reflexivity].
Qed.

Lemma adduct_pair_shape a :
  exists om oc, adduct_pair a = (of_optional om, of_optional oc).
Proof.
  unfold adduct_pair. destruct (List.find _ _) as [e|].
  - exists (Some (mass_multiplier e)), (Some (correction_mass e)). reflexivity.
  - eexists _, _. reflexivity.
Qed.

Lemma resolves_or_not s :
  (exists m c, adduct_resolves s m c) \/ adduct_unresolved s.
Proof.
  destruct (adduct_pair_shape (field s "adduct")) as (om & oc & E).
  destruct om as [m|], oc as [c|].
  - left. exists m, c. apply resolves_pair. exact E.
  - right. intros m' c' Hr. apply resolves_pair in Hr. rewrite E in Hr. discriminate.
  - right. intros m' c' Hr. apply resolves_pair in Hr. rewrite E in Hr. discriminate.
  - right. intros m' c' Hr. apply resolves_pair in Hr. rewrite E in Hr. discriminate.
Qed.

Lemma unresolved_pair s :
  adduct_unresolved s ->
  negb (is_None (snd (adduct_pair (field s "adduct"))))
  && negb (is_None (fst (adduct_pair (field s "adduct")))) = false.
Proof.
  intros Hu. destruct (adduct_pair_shape (field s "adduct")) as (om & oc & E).
  rewrite E. destruct om as [m|], oc as [c|]; try reflexivity.
  exfalso. apply (Hu m c). apply resolves_pair. exact E.
Qed.


(** The adduct branch of the parent mass does not return. *)
Lemma adduct_branch_falls_through s e (pmz : value) :
  e = false \/ adduct_unresolved s ->
  out (if e
       then adduct ← Spectrum_get s "adduct";
            mc ← _get_multiplier_and_correction_mass_from_adduct adduct;
            if negb (is_None (snd mc)) && negb (is_None (fst mc))
            then d ← py_sub pmz (snd mc);
                 parent_mass ← py_div d (fst mc); mret (Some parent_mass)
            else mret None
       else mret None) = Return None.
Proof.
  intros [->|Hu]; [reflexivity|]. destruct e; [|reflexivity].
  out_simpl. rewrite lookup_out. rewrite (unresolved_pair _ Hu). reflexivity.
Qed.

Lemma parent_mass_adduct_path s mz m c :
  field s "precursor_mz" = VNum mz ->
  adduct_resolves s m c ->
  ~ (m == 0)%Q ->
  out (derive_parent_mass_from_precursor_mz (Some s) true)
  = Return (VNum ((mz - c) / m)).
Proof.
  intros Hp Hr Hm. apply resolves_pair in Hr.
  unfold derive_parent_mass_from_precursor_mz. out_simpl. rewrite Hp. cbn [is_None].
  out_simpl. rewrite get_charge_out. out_simpl. rewrite lookup_out, Hr.
  cbn [fst snd is_None negb andb py_sub py_arith]. out_simpl.
  cbn [py_div]. rewrite (nonzero_divisor _ Hm). out_simpl. reflexivity.
Qed.

Lemma parent_mass_charge_path s e mz q :
  field s "precursor_mz" = VNum mz ->
  e = false \/ adduct_unresolved s ->
  effective_charge s = VNum q ->
  ~ (q == 0)%Q ->
  out (derive_parent_mass_from_precursor_mz (Some s) e)
  = Return (VNum (mz * Qabs q - PROTON_MASS * q)).
Proof.
  intros Hp Hpath Hc Hq.
  unfold derive_parent_mass_from_precursor_mz. cbv zeta. rewrite out_bind, out_get, Hp.
  cbn [is_None]. rewrite out_bind, get_charge_out, out_bind.
  rewrite (adduct_branch_falls_through s e (VNum mz) Hpath).
  rewrite Hc, (nonzero_valid _ Hq). reflexivity.
Qed.

Lemma parent_mass_no_path s e :
  field s "precursor_mz" <> VNone ->
  e = false \/ adduct_unresolved s ->
  effective_charge s = VNum 0 ->
  out (derive_parent_mass_from_precursor_mz (Some s) e) = Return VNone.
Proof.
  intros Hp Hpath Hc.
  unfold derive_parent_mass_from_precursor_mz. cbv zeta. rewrite out_bind, out_get.
  destruct (field s "precursor_mz") as [|mz|t] eqn:E; [congruence| |];
    cbn [is_None]; rewrite out_bind, get_charge_out, out_bind;
    rewrite (adduct_branch_falls_through s e _ Hpath), Hc; reflexivity.
Qed.

Lemma precursor_mz_adduct_path s pm m c :
  field s "parent_mass" = VNum pm ->
  adduct_resolves s m c ->
  out (derive_precursor_mz_from_parent_mass (Some s)) = Return (VNum (pm * m + c)).
Proof.
  intros Hp Hr. apply resolves_pair in Hr.
  unfold derive_precursor_mz_from_parent_mass. cbv zeta. rewrite out_bind, out_get, Hp.
  cbn [is_None]. out_simpl. rewrite lookup_out, Hr. reflexivity.
Qed.

(** The adduct branch of the precursor m/z does not return. *)
Lemma precursor_adduct_branch_falls_through s (pm : value) :
  adduct_unresolved s ->
  out (adduct ← Spectrum_get s "adduct";
       mc ← _get_multiplier_and_correction_mass_from_adduct adduct;
       if negb (is_None (snd mc)) && negb (is_None (fst mc))
       then p ← py_mul pm (fst mc);
            precursor_mz ← py_add p (snd mc); mret (Some precursor_mz)
       else mret None) = Return None.
Proof.
  intros Hu. out_simpl. rewrite lookup_out.
  rewrite (unresolved_pair _ Hu). reflexivity.
Qed.

Lemma precursor_mz_charge_path s pm q :
  field s "parent_mass" = VNum pm ->
  adduct_unresolved s ->
  effective_charge s = VNum q ->
  ~ (q == 0)%Q ->
  out (derive_precursor_mz_from_parent_mass (Some s))
  = Return (VNum ((pm + PROTON_MASS * q) / Qabs q)).
Proof.
  intros Hp Hu Hc Hq.
  unfold derive_precursor_mz_from_parent_mass. cbv zeta. rewrite out_bind, out_get, Hp.
  cbn [is_None]. rewrite out_bind.
  rewrite (precursor_adduct_branch_falls_through s (VNum pm) Hu).
  rewrite out_bind, get_charge_out, Hc, (nonzero_valid _ Hq).
  cbn [py_mul py_arith py_add py_abs]. out_simpl.
  cbn [py_div]. rewrite (nonzero_divisor _ (Qabs_nonzero _ Hq)). reflexivity.
Qed.

Lemma precursor_mz_no_path s :
  field s "parent_mass" <> VNone ->
  adduct_unresolved s ->
  effective_charge s = VNum 0 ->
  out (derive_precursor_mz_from_parent_mass (Some s)) = Return VNone
  /\ last (trace (derive_precursor_mz_from_parent_mass (Some s)))
     = Some charge_and_adduct_missing.
Proof.
  intros Hp Hu Hc.
  unfold derive_precursor_mz_from_parent_mass. cbv zeta. split.
  - rewrite out_bind, out_get.
    destruct (field s "parent_mass") as [|pm|t] eqn:E; [congruence| |];
      cbn [is_None]; rewrite out_bind;
      rewrite (precursor_adduct_branch_falls_through s _ Hu);
      rewrite out_bind, get_charge_out, Hc; reflexivity.
  - eapply last_bind; [apply out_get|].
    destruct (field s "parent_mass") as [|pm|t] eqn:E; [congruence| |];
      cbn [is_None];
      (eapply last_bind; [apply (precursor_adduct_branch_falls_through s _ Hu)|]);
      (eapply last_bind; [apply get_charge_out|]);
      rewrite Hc; reflexivity.
Qed.

Lemma precursor_mz_missing_parent_mass s :
  field s "parent_mass" = VNone ->
  derive_precursor_mz_from_parent_mass (Some s)
  = ([EvGet "parent_mass"; EvLog WARNING "Missing parent mass to derive precursor mz." []],
     Return VNone).
Proof.
  intros Hp. unfold derive_precursor_mz_from_parent_mass, Spectrum_get, log, emit.
  cbv zeta. fold (field s "parent_mass"). rewrite Hp. reflexivity.
Qed.

(** The effective charge is a nonzero number, zero, or the text of a
    [charge] field that no filter has made an integer yet. *)
Lemma effective_charge_cases s :
  (exists q, nonzero_charge s q)
  \/ effective_charge s = VNum 0
  \/ exists t, effective_charge s = VStr t.
Proof.
  assert (Hmode : (exists q, (if is_text (field s "ionmode") "positive" then VNum 1
                              else if is_text (field s "ionmode") "negative" then VNum (-1)
                              else VNum 0) = VNum q /\ ~ (q == 0)%Q)
                  \/ (if is_text (field s "ionmode") "positive" then VNum 1
                      else if is_text (field s "ionmode") "negative" then VNum (-1)
                      else VNum 0) = VNum 0).
  { destruct (is_text (field s "ionmode") "positive").
    - left. exists 1%Q. split; [reflexivity|discriminate].
    - destruct (is_text (field s "ionmode") "negative").
      + left. exists (-1)%Q. split; [reflexivity|discriminate].
      + right. reflexivity. }
  unfold nonzero_charge, effective_charge.
  destruct (field s "charge") as [|q|t]; cbn [charge_present_and_nonzero].
  - destruct Hmode as [(q & Hq)|H0]; [left; exists q; exact Hq|right; left; exact H0].
  - destruct (Qeq_bool q 0) eqn:E; cbn [negb].
    + destruct Hmode as [(q' & Hq)|H0]; [left; exists q'; exact Hq|right; left; exact H0].
    + left. exists q. split; [reflexivity|]. apply Qeq_bool_neq. exact E.
  - right. right. exists t. reflexivity.
Qed.

(** A text passes [_is_valid_charge]: it is not [None] and differs from 0. *)
Lemma text_charge_is_valid t : _is_valid_charge (VStr t) = true.
Proof. reflexivity. Qed.

(** With a text as the effective charge the proton correction of the parent
    mass raises at its first product. *)
Lemma parent_mass_text_charge s e t :
  field s "precursor_mz" <> VNone ->
  e = false \/ adduct_unresolved s ->
  effective_charge s = VStr t ->
  out (derive_parent_mass_from_precursor_mz (Some s) e) = Raise TypeError.
Proof.
  intros Hp Hpath Hc.
  unfold derive_parent_mass_from_precursor_mz. cbv zeta. rewrite out_bind, out_get.
  destruct (field s "precursor_mz") as [|mz|u] eqn:E; [congruence| |];
    cbn [is_None]; rewrite out_bind, get_charge_out, out_bind;
    rewrite (adduct_branch_falls_through s e _ Hpath), Hc; reflexivity.
Qed.

(** With a text as the precursor m/z the proton correction raises too, for
    every effective charge that sends it there. *)
Lemma parent_mass_text_precursor s e u :
  field s "precursor_mz" = VStr u ->
  e = false \/ adduct_unresolved s ->
  effective_charge s <> VNum 0 ->
  out (derive_parent_mass_from_precursor_mz (Some s) e) = Raise TypeError.
Proof.
  intros Hp Hpath Hc.
  destruct (effective_charge_cases s) as [(q & Hq & Hnz)|[H0|(t & Ht)]].
  - unfold derive_parent_mass_from_precursor_mz. cbv zeta. rewrite out_bind, out_get, Hp.
    cbn [is_None]. rewrite out_bind, get_charge_out, out_bind.
    rewrite (adduct_branch_falls_through s e (VStr u) Hpath).
    rewrite Hq, (nonzero_valid _ Hnz). reflexivity.
  - contradiction.
  - apply (parent_mass_text_charge s e t); [rewrite Hp; discriminate|exact Hpath|exact Ht].
Qed.

(** The same on the way back: a text as the effective charge raises. *)
Lemma precursor_mz_text_charge s t :
  field s "parent_mass" <> VNone ->
  adduct_unresolved s ->
  effective_charge s = VStr t ->
  out (derive_precursor_mz_from_parent_mass (Some s)) = Raise TypeError.
Proof.
  intros Hp Hu Hc. unfold derive_precursor_mz_from_parent_mass. cbv zeta.
  rewrite out_bind, out_get.
  destruct (field s "parent_mass") as [|pm|u] eqn:E; [congruence| |];
    cbn [is_None]; rewrite out_bind;
    rewrite (precursor_adduct_branch_falls_through s _ Hu);
    rewrite out_bind, get_charge_out, Hc; reflexivity.
Qed.

(** A text as the parent mass raises in the adduct path. *)
Lemma precursor_mz_text_parent_mass_adduct s u m c :
  field s "parent_mass" = VStr u ->
  adduct_resolves s m c ->
  out (derive_precursor_mz_from_parent_mass (Some s)) = Raise TypeError.
Proof.
  intros Hp Hr. apply resolves_pair in Hr.
  unfold derive_precursor_mz_from_parent_mass. cbv zeta. rewrite out_bind, out_get, Hp.
  cbn [is_None]. out_simpl. rewrite lookup_out, Hr. reflexivity.
Qed.

(** A text as the parent mass raises in the charge path. *)
Lemma precursor_mz_text_parent_mass_charge s u :
  field s "parent_mass" = VStr u ->
  adduct_unresolved s ->
  effective_charge s <> VNum 0 ->
  out (derive_precursor_mz_from_parent_mass (Some s)) = Raise TypeError.
Proof.
  intros Hp Hu Hc.
  destruct (effective_charge_cases s) as [(q & Hq & Hnz)|[H0|(t & Ht)]].
  - unfold derive_precursor_mz_from_parent_mass. cbv zeta. rewrite out_bind, out_get, Hp.
    cbn [is_None]. rewrite out_bind.
    rewrite (precursor_adduct_branch_falls_through s (VStr u) Hu).
    rewrite out_bind, get_charge_out, Hq, (nonzero_valid _ Hnz). reflexivity.
  - contradiction.
  - apply (precursor_mz_text_charge s t); [rewrite Hp; discriminate|exact Hu|exact Ht].
Qed.

(** C5.  The effective charge that [_get_charge] returns is the [charge]
    field if it is present and nonzero, otherwise +1 for an [ionmode] equal
    to "positive", otherwise -1 for an [ionmode] equal to "negative",
    otherwise 0; it never raises. *)
Theorem get_charge_is_effective_charge (s : Spectrum) :
  out (_get_charge s) = Return (effective_charge s)
  /\ (charge_present_and_nonzero (field s "charge") = true ->
      effective_charge s = field s "charge")
  /\ (charge_present_and_nonzero (field s "charge") = false ->
      effective_charge s
      = if is_text (field s "ionmode") "positive" then VNum 1
        else if is_text (field s "ionmode") "negative" then VNum (-1)
        else VNum 0).
Proof.
  split; [apply get_charge_out|].
  unfold effective_charge. split; intros ->; reflexivity.
Qed.

(** C3.  With a precursor m/z, [estimate_from_adduct] set and an adduct that
    resolves to (multiplier, correction_mass), the parent mass is
    (precursor_mz - correction_mass) / multiplier, whatever the charge and
    the ionmode of the spectrum are: the charge path is not used. *)
Theorem parent_mass_adduct_precedence (s : Spectrum) (mz m c : Q) :
  field s "precursor_mz" = VNum mz ->
  adduct_resolves s m c ->
  ~ (m == 0)%Q ->
  out (derive_parent_mass_from_precursor_mz (Some s) true)
  = Return (VNum ((mz - c) / m))
  /\ forall s' : Spectrum,
       field s' "precursor_mz" = field s "precursor_mz" ->
       field s' "adduct" = field s "adduct" ->
       out (derive_parent_mass_from_precursor_mz (Some s') true)
       = Return (VNum ((mz - c) / m)).
Proof.
  intros Hp Hr Hm. split; [apply parent_mass_adduct_path; assumption|].
  intros s' Hp' Ha'. apply parent_mass_adduct_path; [congruence| |exact Hm].
  unfold adduct_resolves in *. rewrite Ha'. exact Hr.
Qed.

(** C4, as amended.  With a precursor m/z and the adduct path not applying
    ([estimate_from_adduct] unset, or no multiplier and correction mass for
    the adduct), the parent mass is precursor_mz * |charge| - charge *
    PROTON_MASS where the precursor m/z and the effective charge are numbers
    and the charge is not zero, and [None] where the effective charge is
    zero.  An effective charge that is a text (a [charge] field that is not
    a number: [_is_valid_charge] lets it pass) makes the proton correction
    raise [TypeError], and so does a precursor m/z that is a text with an
    effective charge other than zero.  The effective charge has no other
    form. *)
Theorem parent_mass_charge_fallback (s : Spectrum) (e : bool) :
  field s "precursor_mz" <> VNone ->
  e = false \/ adduct_unresolved s ->
  (forall mz q,
      field s "precursor_mz" = VNum mz ->
      nonzero_charge s q ->
      exists r, out (derive_parent_mass_from_precursor_mz (Some s) e) = Return (VNum r)
                /\ (r == mz * Qabs q - q * PROTON_MASS)%Q)
  /\ (effective_charge s = VNum 0 ->
      out (derive_parent_mass_from_precursor_mz (Some s) e) = Return VNone)
  /\ (forall t,
        effective_charge s = VStr t ->
        _is_valid_charge (effective_charge s) = true
        /\ out (derive_parent_mass_from_precursor_mz (Some s) e) = Raise TypeError)
  /\ (forall u,
        field s "precursor_mz" = VStr u ->
        effective_charge s <> VNum 0 ->
        out (derive_parent_mass_from_precursor_mz (Some s) e) = Raise TypeError)
  /\ ((exists q, nonzero_charge s q)
      \/ effective_charge s = VNum 0
      \/ exists t, effective_charge s = VStr t).
Proof.
  intros Hp Hpath. split; [|split; [|split; [|split]]].
  - intros mz q Hmz [Hc Hq]. eexists. split.
    + apply parent_mass_charge_path; eassumption.
    + ring.
  - intros Hc. apply parent_mass_no_path; assumption.
  - intros t Hc. split; [rewrite Hc; apply text_charge_is_valid|].
    apply (parent_mass_text_charge s e t); assumption.
  - intros u Hu Hc. apply (parent_mass_text_precursor s e u); assumption.
  - apply effective_charge_cases.
Qed.

(** C6, as amended.  [derive_precursor_mz_from_parent_mass] returns [None]
    without raising when the parent mass is missing; else parent_mass *
    multiplier + correction_mass when the adduct resolves and the parent
    mass is a number; else (parent_mass + charge * PROTON_MASS) / |charge|
    where the parent mass and the effective charge are numbers and the
    charge is not zero; else, where the effective charge is zero, [None],
    logged as an error and not raised.  An effective charge that is a text
    (a [charge] field that is not a number: [_is_valid_charge] lets it
    pass) makes the proton correction raise [TypeError], and so does a
    parent mass that is a text in the adduct path and in the charge path.
    The effective charge has no other form. *)
Theorem precursor_mz_derivation_cases (s : Spectrum) :
  (field s "parent_mass" = VNone ->
   out (derive_precursor_mz_from_parent_mass (Some s)) = Return VNone)
  /\ (forall pm m c,
        field s "parent_mass" = VNum pm ->
        adduct_resolves s m c ->
        out (derive_precursor_mz_from_parent_mass (Some s)) = Return (VNum (pm * m + c)))
  /\ (forall pm q,
        field s "parent_mass" = VNum pm ->
        adduct_unresolved s ->
        nonzero_charge s q ->
        exists r, out (derive_precursor_mz_from_parent_mass (Some s)) = Return (VNum r)
                  /\ (r == (pm + q * PROTON_MASS) / Qabs q)%Q)
  /\ (field s "parent_mass" <> VNone ->
      adduct_unresolved s ->
      effective_charge s = VNum 0 ->
      out (derive_precursor_mz_from_parent_mass (Some s)) = Return VNone
      /\ last (trace (derive_precursor_mz_from_parent_mass (Some s)))
         = Some charge_and_adduct_missing)
  /\ (forall t,
        field s "parent_mass" <> VNone ->
        adduct_unresolved s ->
        effective_charge s = VStr t ->
        _is_valid_charge (effective_charge s) = true
        /\ out (derive_precursor_mz_from_parent_mass (Some s)) = Raise TypeError)
  /\ (forall u,
        field s "parent_mass" = VStr u ->
        (exists m c, adduct_resolves s m c) \/ effective_charge s <> VNum 0 ->
        out (derive_precursor_mz_from_parent_mass (Some s)) = Raise TypeError)
  /\ ((exists q, nonzero_charge s q)
      \/ effective_charge s = VNum 0
      \/ exists t, effective_charge s = VStr t).
Proof.
  split; [|split; [|split; [|split; [|split; [|split]]]]].
  - intros Hp. rewrite (precursor_mz_missing_parent_mass _ Hp). reflexivity.
  - intros pm m c. apply precursor_mz_adduct_path.
  - intros pm q Hp Hu [Hc Hq]. eexists. split.
    + apply precursor_mz_charge_path; eassumption.
    + assert (Ha := Qabs_nonzero _ Hq). field. exact Ha.
  - apply precursor_mz_no_path.
  - intros t Hp Hu Hc. split; [rewrite Hc; apply text_charge_is_valid|].
    apply (precursor_mz_text_charge s t); assumption.
  - intros u Hp Hcase. destruct (resolves_or_not s) as [(m & c & Hr)|Hu].
    + apply (precursor_mz_text_parent_mass_adduct s u m c); assumption.
    + destruct Hcase as [(m & c & Hr)|Hc]; [exfalso; exact (Hu m c Hr)|].
      apply (precursor_mz_text_parent_mass_charge s u); assumption.
  - apply effective_charge_cases.
Qed.


End MassDerivation.

(** ** Annotation validation *)

Section AnnotationValidator.
Context `{StructureCollaborators}.

(** C2.  On a spectrum (not [None]), [require_annotation] evaluates the five
    checks in the listed order and stops at the first that fails: it returns
    [None] then, having called the collaborators of the checks up to that one
    and logged its rejection, and it returns the spectrum when all five
    hold. *)
Theorem require_annotation_checks_in_order (s : Spectrum) :
  conversions_return_text ->
  out (require_annotation (Some s))
  = Return (match first_failing s with None => Some s | Some _ => None end)
  /\ trace (require_annotation (Some s))
     = [EvClone; EvGet "smiles"; EvGet "inchi"; EvGet "inchikey"]
       ++ concat (map (calls_of s) (evaluated (check_holds s) checks_in_order))
       ++ match first_failing s with Some c => rejection s c | None => [] end.
Proof.
  intros (Hkey & Hinchi & Hsmiles).
  unfold first_failing, checks_in_order, require_annotation.
  unfold Spectrum_clone, Spectrum_get, call, log, emit.
  run.
  fold (field s "smiles") (field s "inchi") (field s "inchikey").
  destruct (is_valid_smiles (field s "smiles")) eqn:E1; run; [|split; reflexivity].
  destruct (is_valid_inchikey (field s "inchikey")) eqn:E2; run; [|split; reflexivity].
  destruct (is_valid_inchi (field s "inchi")) eqn:E3; run; [|split; reflexivity].
  destruct (Hkey _ E2) as (k & Ek). destruct (Hinchi _ E3) as (k1 & Ek1).
  destruct (Hsmiles _ E1) as (k2 & Ek2).
  rewrite ?Ek, ?Ek1, ?Ek2. run.
  destruct (String.eqb (String.substring 0 14 k) (String.substring 0 14 k1)) eqn:E4; run.
  2:{ rewrite ?Ek, ?Ek1. split; reflexivity. }
  rewrite ?Ek, ?Ek1, ?Ek2. run.
  destruct (String.eqb (String.substring 0 14 k) (String.substring 0 14 k2)) eqn:E5; run.
  2:{ rewrite ?Ek, ?Ek2. split; reflexivity. }
  rewrite ?Ek. split; reflexivity.
Qed.

End AnnotationValidator.

(** C10.  On [None] each of the three functions returns [None] at once: no
    exception, and an empty trace, so no metadata read, no collaborator
    call and no log record. *)
Theorem none_spectrum_returns_none `{MassCollaborators} `{StructureCollaborators}
    (estimate_from_adduct : bool) :
  derive_parent_mass_from_precursor_mz None estimate_from_adduct = ([], Return VNone)
  /\ derive_precursor_mz_from_parent_mass None = ([], Return VNone)
  /\ require_annotation None = ([], Return None).
Proof. repeat split. Qed.

(** ** The pipeline *)

Lemma count_incr name c n :
  Pipeline.count (Pipeline.incr name c) n
  = if decide (n = name) then S (Pipeline.count c n) else Pipeline.count c n.
Proof.
  unfold Pipeline.count, Pipeline.incr. destruct (decide (n = name)) as [->|Hn].
  - rewrite lookup_insert_eq. reflexivity.
  - rewrite lookup_insert_ne by congruence. reflexivity.
Qed.

Lemma count_iter_incr k name c n :
  Pipeline.count (Nat.iter k (Pipeline.incr name) c) n
  = if decide (n = name) then (Pipeline.count c n + k)%nat else Pipeline.count c n.
Proof.
  induction k as [|k IH]; simpl Nat.iter.
  - destruct (decide _); lia.
  - rewrite count_incr, IH. destruct (decide _); lia.
Qed.

Lemma elem_of_added_keys before after k :
  k ∈ Pipeline.added_keys before after
  <-> is_Some (metadata after !! k) /\ metadata before !! k = None.
Proof.
  unfold Pipeline.added_keys. rewrite elem_of_dom. split.
  - intros [v Hv]. apply map_lookup_filter_Some in Hv as [Hv Hb]. cbn in Hb. eauto.
  - intros [[v Hv] Hb]. exists v. apply map_lookup_filter_Some. split; [exact Hv|exact Hb].
Qed.

Lemma elem_of_changed_keys before after k :
  k ∈ Pipeline.changed_keys before after
  <-> exists v0 v, metadata before !! k = Some v0 /\ metadata after !! k = Some v
                   /\ py_eq v0 v = false.
Proof.
  unfold Pipeline.changed_keys. rewrite elem_of_dom. split.
  - intros [v Hv]. apply map_lookup_filter_Some in Hv as [Hv Hb]. cbn in Hb.
    unfold Pipeline.differs in Hb.
    destruct (metadata before !! k) as [v0|] eqn:E; [|discriminate].
    exists v0, v. repeat split; [exact Hv|]. destruct (py_eq v0 v); [discriminate|reflexivity].
  - intros (v0 & v & Hb & Ha & Hd). exists v. apply map_lookup_filter_Some.
    split; [exact Ha|]. cbn. unfold Pipeline.differs. rewrite Hb, Hd. reflexivity.
Qed.

Section PipelineProperties.
Import Pipeline.
Context `{FilterCatalog}.

(** The attribution of one step by [add_to_report]: the removal, or the
    numbers of added and of changed keys, under the filter name only; the
    processed counter is not its part. *)
Lemma add_to_report_attribution (r : ProcessingReport) (before : Spectrum)
    (after : option Spectrum) (name : string) :
  counter_number_processed (add_to_report r before after name)
  = counter_number_processed r
  /\ match after with
     | None =>
         (forall n, count (counter_removed_spectrums (add_to_report r before None name)) n
                    = if decide (n = name) then S (count (counter_removed_spectrums r) n)
                      else count (counter_removed_spectrums r) n)
         /\ counter_added_field (add_to_report r before None name) = counter_added_field r
         /\ counter_changed_field (add_to_report r before None name)
            = counter_changed_field r
     | Some a =>
         counter_removed_spectrums (add_to_report r before (Some a) name)
         = counter_removed_spectrums r
         /\ (forall n, count (counter_added_field (add_to_report r before (Some a) name)) n
                       = if decide (n = name)
                         then (count (counter_added_field r) n
                               + size (added_keys before a))%nat
                         else count (counter_added_field r) n)
         /\ (forall n, count (counter_changed_field (add_to_report r before (Some a) name)) n
                       = if decide (n = name)
                         then (count (counter_changed_field r) n
                               + size (changed_keys before a))%nat
                         else count (counter_changed_field r) n)
         /\ (forall k, k ∈ added_keys before a
                       <-> is_Some (metadata a !! k) /\ metadata before !! k = None)
         /\ (forall k, k ∈ changed_keys before a
                       <-> exists v0 v, metadata before !! k = Some v0
                                        /\ metadata a !! k = Some v
                                        /\ py_eq v0 v = false)
     end.
Proof.
  destruct after as [a|]; cbn [add_to_report counter_number_processed
    counter_removed_spectrums counter_added_field counter_changed_field].
  - split; [reflexivity|]. split; [reflexivity|].
    split; [intros n; apply count_iter_incr|].
    split; [intros n; apply count_iter_incr|].
    split; [apply elem_of_added_keys|apply elem_of_changed_keys].
  - split; [reflexivity|]. split; [intros n; apply count_incr|]. split; reflexivity.
Qed.




(** C7.  [process_spectrum] on a processor without filters raises the error
    "No filters to process" for every spectrum; it returns nothing, [None]
    or other. *)
Theorem process_spectrum_no_filters (p : SpectrumProcessor) (s : Spectrum)
    (r : ProcessingReport) :
  filters p = [] ->
  process_spectrum p s r = inl (Raised "TypeError" "No filters to process")
  /\ forall res, process_spectrum p s r <> inr res.
Proof.
  intros Hp. unfold process_spectrum, process_spectrum_observed. rewrite Hp.
  split; [reflexivity|discriminate].
Qed.

Lemma add_matchms_filter_customs p name params p' :
  add_matchms_filter p name params = inr p' -> custom_filters p' = custom_filters p.
Proof.
  unfold add_matchms_filter. destruct (resolve name params); [discriminate|].
  intros [= <-]. reflexivity.
Qed.

Lemma add_filters_customs sts : forall p p',
  (forall st, In st sts -> match st with StepFunction _ _ => False | _ => True end) ->
  add_filters p sts = inr p' -> custom_filters p' = custom_filters p.
Proof.
  induction sts as [|st sts IH]; intros p p' Hk; cbn [add_filters].
  - intros [= <-]. reflexivity.
  - destruct (add_filter p st) as [e|p1] eqn:E; [discriminate|]. intros Hrest.
    rewrite (IH p1 p' (fun st' Hin => Hk st' (or_intror Hin)) Hrest).
    specialize (Hk st (or_introl eq_refl)).
    destruct st as [name|name params|f params]; cbn [add_filter] in E;
      [eapply add_matchms_filter_customs; exact E
      |eapply add_matchms_filter_customs; exact E|contradiction].
Qed.

Lemma construct_customs preset p : construct preset = inr p -> custom_filters p = [].
Proof.
  unfold construct. destruct preset as [name|]; [|intros [= <-]; reflexivity].
  destruct (List.find _ _) as [np|]; [|discriminate].
  intros Hp. apply add_filters_customs in Hp; [exact Hp|].
  intros st Hin. apply in_map_iff in Hin as (sp & <- & _). exact I.
Qed.

Lemma configure_customs calls : forall p p',
  configure p calls = inr p' ->
  custom_filters p' = custom_filters p ++ customs_added calls.
Proof.
  induction calls as [|c calls IH]; intros p p'; cbn [configure customs_added].
  - intros [= <-]. rewrite app_nil_r. reflexivity.
  - destruct c as [st|f params].
    + destruct (add_filter p st) as [e|p1] eqn:E; [discriminate|]. intros Hrest.
      rewrite (IH _ _ Hrest).
      destruct st as [name|name params|f params]; cbn [add_filter] in E.
      * rewrite (add_matchms_filter_customs _ _ _ _ E). reflexivity.
      * rewrite (add_matchms_filter_customs _ _ _ _ E). reflexivity.
      * injection E as <-. cbn [add_custom_filter custom_filters default].
        rewrite <- app_assoc. reflexivity.
    + intros Hrest. rewrite (IH _ _ Hrest). cbn [add_custom_filter custom_filters].
      rewrite <- app_assoc. reflexivity.
Qed.

Lemma bound_steps_known steps :
  Forall (fun f => is_custom f = false) (omap bind_step steps).
Proof.
  apply List.Forall_forall. intros f Hf. apply list_elem_of_In in Hf.
  apply list_elem_of_omap in Hf as (st & _ & Hst). unfold bind_step in Hst.
  destruct (find_entry (step_name st)); [|discriminate]. injection Hst as <-. reflexivity.
Qed.

Lemma customs_added_custom calls :
  Forall (fun f => is_custom f = true) (customs_added calls).
Proof.
  induction calls as [|c calls IH]; cbn [customs_added]; [constructor|].
  destruct c as [[name|name params|f params]|f params]; auto.
Qed.

Lemma run_filters_names (fs : list BoundFilter) : forall s (l : list string) res names,
  run_filters (fun l _ _ name => l ++ [name]) fs s l = (res, names) ->
  exists done,
    names = l ++ done
    /\ done `prefix_of` map bound_name fs
    /\ (res <> None -> done = map bound_name fs).
Proof.
  induction fs as [|f fs IH]; intros s l res names; cbn [run_filters map].
  - intros [= <- <-]. exists []. rewrite app_nil_r. repeat split; reflexivity.
  - destruct (bound_call f s) as [s'|].
    + intros Hr. destruct (IH _ _ _ _ Hr) as (done & -> & Hp & Hall).
      exists (bound_name f :: done). rewrite <- app_assoc. split; [reflexivity|].
      split; [apply prefix_cons; exact Hp|]. intros Hs. rewrite (Hall Hs). reflexivity.
    + intros [= <- <-]. exists [bound_name f]. split; [reflexivity|].
      split; [apply prefix_cons, prefix_nil|]. congruence.
Qed.

(** C8.  In every configuration (a preset, then any sequence of [add_filter]
    and [add_custom_filter] calls) the execution order is the known filters
    followed by the custom filters in the order of their addition, wherever
    among the calls they were added; and the filters executed on a spectrum
    are an initial part of that order, all of it when the spectrum
    survives. *)
Theorem custom_filters_run_last (preset : option string)
    (p0 : SpectrumProcessor) (calls : list config_call) (p : SpectrumProcessor) :
  construct preset = inr p0 ->
  configure p0 calls = inr p ->
  (exists known,
      filters p = known ++ customs_added calls
      /\ Forall (fun f => is_custom f = false) known
      /\ Forall (fun f => is_custom f = true) (customs_added calls))
  /\ forall s res names,
      executed p s = inr (res, names) ->
      names `prefix_of` map bound_name (filters p)
      /\ (res <> None -> names = map bound_name (filters p)).
Proof.
  intros H0 Hc. split.
  - exists (omap bind_step (known_steps p)). unfold filters.
    rewrite (configure_customs _ _ _ Hc), (construct_customs _ _ H0).
    split; [reflexivity|]. split; [apply bound_steps_known|apply customs_added_custom].
  - intros s res names. unfold executed, process_spectrum_observed.
    destruct (filters p) as [|f fs]; [discriminate|]. intros Hr.
    assert (Hrun : run_filters (fun l _ _ name => l ++ [name]) (f :: fs) s [] = (res, names))
      by (injection Hr as Hr; exact Hr).
    destruct (run_filters_names _ _ _ _ _ Hrun) as (done & -> & Hp & Hall).
    split; [exact Hp|exact Hall].
Qed.


(** *** Which counter counts what

    The processed counter of the model counts spectra; with an
    [add_to_report] that increments it, a batch whose spectra all survive
    counts spectra times filters. *)

Lemma add_to_report_keeps_processed r before after name :
  counter_number_processed (add_to_report r before after name)
  = counter_number_processed r.
Proof. destruct after; reflexivity. Qed.

Lemma run_filters_keeps_processed fs : forall s r,
  counter_number_processed (snd (run_filters add_to_report fs s r))
  = counter_number_processed r.
Proof.
  induction fs as [|f fs IH]; intros s r; cbn [run_filters]; [reflexivity|].
  destruct (bound_call f s) as [s'|]; cbn [snd].
  - rewrite IH. apply add_to_report_keeps_processed.
  - reflexivity.
Qed.

Lemma process_spectrums_counts_spectra p : forall l r out r',
  process_spectrums_observed count_processed add_to_report p l r = inr (out, r') ->
  counter_number_processed r' = (counter_number_processed r + length l)%nat.
Proof.
  induction l as [|s l IH]; intros r out r'; cbn [process_spectrums_observed length].
  - intros [= _ <-]. lia.
  - unfold process_spectrum_observed at 1.
    destruct (filters p) as [|f fs]; [discriminate|].
    destruct (run_filters add_to_report (f :: fs) s (count_processed r))
      as [res r1] eqn:E.
    destruct (process_spectrums_observed _ _ p l r1) as [e|[outs r2]] eqn:E2; [discriminate|].
    intros [= _ <-]. rewrite (IH _ _ _ E2).
    assert (Hk := run_filters_keeps_processed (f :: fs) s (count_processed r)).
    rewrite E in Hk. cbn [snd] in Hk. rewrite Hk. cbn [count_processed counter_number_processed].
    lia.
Qed.

Lemma run_filters_as_specified_counts fs : forall s r res r',
  run_filters add_to_report_as_specified fs s r = (res, r') ->
  res <> None ->
  counter_number_processed r' = (counter_number_processed r + length fs)%nat.
Proof.
  induction fs as [|f fs IH]; intros s r res r'; cbn [run_filters length].
  - intros [= _ <-] _. lia.
  - destruct (bound_call f s) as [s'|].
    + intros Hr Hres. rewrite (IH _ _ _ _ Hr Hres).
      unfold add_to_report_as_specified. rewrite add_to_report_keeps_processed.
      cbn [count_processed counter_number_processed]. lia.
    + intros [= <- _] Hres. congruence.
Qed.

Lemma process_spectrums_as_specified_counts_steps p : forall l r out r',
  process_spectrums_observed (fun r => r) add_to_report_as_specified p l r = inr (out, r') ->
  (length out <= length l)%nat
  /\ (length out = length l ->
      counter_number_processed r'
      = (counter_number_processed r + length l * length (filters p))%nat).
Proof.
  induction l as [|s l IH]; intros r out r'; cbn [process_spectrums_observed length].
  - intros [= <- <-]. cbn [length]. split; lia.
  - unfold process_spectrum_observed at 1.
    destruct (filters p) as [|f fs] eqn:Ef; [discriminate|].
    destruct (run_filters add_to_report_as_specified (f :: fs) s r) as [res r1] eqn:E.
    destruct (process_spectrums_observed _ _ p l r1) as [e|[outs r2]] eqn:E2; [discriminate|].
    intros [= <- <-]. destruct (IH _ _ _ E2) as [Hle Heq].
    destruct res as [s'|]; cbn [length].
    + split; [lia|]. intros Hlen.
      rewrite Heq by lia.
      rewrite (run_filters_as_specified_counts _ _ _ _ _ E) by discriminate.
      cbn [length]. lia.
    + split; [lia|]. intros Hlen. lia.
Qed.

(** Whatever the four filters of "minimal" do, a report that counts as
    section 4.3 words it reads twelve after three surviving spectra, where
    the test reads three. *)
Lemma report_as_specified_misses_test (p : SpectrumProcessor) (l out : list Spectrum)
    (report : ProcessingReport) :
  length (filters p) = 4%nat ->
  length l = 3%nat ->
  process_spectrums_as_specified p l = inr (out, report) ->
  length out = 3%nat ->
  counter_number_processed report = 12%nat.
Proof.
  intros Hf Hl Hrun Hout.
  destruct (process_spectrums_as_specified_counts_steps p l _ _ _ Hrun) as [_ Hc].
  rewrite Hc by congruence. rewrite Hf, Hl. reflexivity.
Qed.

(** And the model reads the number of spectra, whatever the filters do. *)
Lemma report_counts_spectra (p : SpectrumProcessor) (l out : list Spectrum)
    (report : ProcessingReport) :
  process_spectrums p l = inr (out, report) ->
  counter_number_processed report = length l.
Proof. intros Hrun. apply (process_spectrums_counts_spectra p l _ _ _ Hrun). Qed.

End PipelineProperties.

(** ** More on the mass derivation *)


Lemma Spectrum_get_field s k :
  Spectrum_get s k = (emit (EvGet k);; mret (field s k)).
Proof. reflexivity. Qed.

Lemma field_set_other s k v k' : k <> k' -> field (Spectrum_set s k v) k' = field s k'.
Proof. intros Hk. rewrite field_set. rewrite decide_False by exact Hk. reflexivity. Qed.


Lemma out_bind_congr {A B} (m m' : M A) (f : A -> M B) :
  out m = out m' -> out (m ≫= f) = out (m' ≫= f).
Proof. intros E. rewrite !out_bind, E. reflexivity. Qed.

Lemma out_bind_ext {A B} (m : M A) (f g : A -> M B) :
  (forall a, out (f a) = out (g a)) -> out (m ≫= f) = out (m ≫= g).
Proof. intros E. rewrite !out_bind. destruct (out m); [apply E|reflexivity]. Qed.

Section MassDerivationMore.
Context `{MassCollaborators}.


Lemma lookup_trace_eq a :
  trace (_get_multiplier_and_correction_mass_from_adduct a) = lookup_trace a.
Proof.
  unfold _get_multiplier_and_correction_mass_from_adduct, lookup_trace.
  rewrite trace_bind, out_call. rewrite trace_bind, out_call.
  destruct (py_in_column (_clean_adduct a) load_known_adducts) eqn:E.
  - destruct (in_column_find _ _ E) as (e & Hf & Hl).
    destruct (Hl mass_multiplier) as (r1 & ->). destruct (Hl correction_mass) as (r2 & ->).
    reflexivity.
  - reflexivity.
Qed.

(** The lookup never raises: [values[0]] is not taken of an empty
    selection.  For an adduct whose cleaned text is in the table it returns
    the multiplier and the correction mass of the first row with that text,
    whatever rows follow. *)
Theorem adduct_lookup_first_row (a : value) (t : string)
    (before after : list AdductEntry) (row : AdductEntry) :
  _clean_adduct a = VStr t ->
  load_known_adducts = before ++ row :: after ->
  adduct row = t ->
  Forall (fun e => adduct e <> t) before ->
  out (_get_multiplier_and_correction_mass_from_adduct a)
  = Return (VNum (mass_multiplier row), VNum (correction_mass row)).
Proof.
  intros Ha Htbl Hrow Hbefore. rewrite lookup_out. unfold adduct_pair.
  rewrite Ha, Htbl. clear Htbl.
  induction before as [|x before IH]; cbn [app find].
  - cbn [py_eq]. rewrite Hrow, String.eqb_refl. reflexivity.
  - apply Forall_cons in Hbefore as [Hx Hb]. cbn [py_eq].
    destruct (String.eqb_spec (adduct x) t) as [E|_]; [contradiction|]. exact (IH Hb).
Qed.

Theorem adduct_lookup_never_raises (a : value) :
  exists m c : option Q,
    out (_get_multiplier_and_correction_mass_from_adduct a)
    = Return (of_optional m, of_optional c).
Proof.
  destruct (adduct_pair_shape a) as (m & c & E). exists m, c.
  rewrite lookup_out, E. reflexivity.
Qed.

(** Outside the table the lookup asks the interpreter of unknown adducts
    about the text "adduct", not about the adduct at hand: two adducts that
    the table does not hold get the same answer. *)
Theorem adduct_lookup_outside_table (a b : value) :
  py_in_column (_clean_adduct a) load_known_adducts = false ->
  py_in_column (_clean_adduct b) load_known_adducts = false ->
  out (_get_multiplier_and_correction_mass_from_adduct a)
  = out (_get_multiplier_and_correction_mass_from_adduct b)
  /\ last (trace (_get_multiplier_and_correction_mass_from_adduct a))
     = Some (EvCall "get_multiplier_and_mass_from_adduct" [VStr "adduct"]).
Proof.
  intros Ha Hb. split.
  - rewrite !lookup_out. f_equal. apply unknown_adducts_share_one_answer; assumption.
  - rewrite lookup_trace_eq. unfold lookup_trace. rewrite Ha. reflexivity.
Qed.



(** A missing input field: each derivation reads that field only, logs one
    warning and returns [None]; charge, ionmode and adduct are not read and
    no collaborator is called. *)
Theorem missing_field_is_soft_failure (s : Spectrum) (e : bool) :
  (field s "precursor_mz" = VNone ->
   derive_parent_mass_from_precursor_mz (Some s) e
   = ([EvGet "precursor_mz";
       EvLog WARNING "Missing precursor m/z to derive parent mass." []],
      Return VNone))
  /\ (field s "parent_mass" = VNone ->
      derive_precursor_mz_from_parent_mass (Some s)
      = ([EvGet "parent_mass";
          EvLog WARNING "Missing parent mass to derive precursor mz." []],
         Return VNone)).
Proof.
  split; [|apply precursor_mz_missing_parent_mass].
  intros Hp. unfold derive_parent_mass_from_precursor_mz, Spectrum_get, log, emit.
  fold (field s "precursor_mz"). rewrite Hp. reflexivity.
Qed.

(** Where the adduct does not resolve, [estimate_from_adduct] changes
    nothing of the outcome: value, [None] or exception. *)
Theorem estimate_flag_without_adduct (s : Spectrum) :
  adduct_unresolved s ->
  out (derive_parent_mass_from_precursor_mz (Some s) true)
  = out (derive_parent_mass_from_precursor_mz (Some s) false).
Proof.
  intros Hu. unfold derive_parent_mass_from_precursor_mz. cbv zeta.
  apply out_bind_ext. intros precursor_mz.
  destruct (is_None precursor_mz); [reflexivity|].
  apply out_bind_ext. intros charge. apply out_bind_congr.
  rewrite (adduct_branch_falls_through s true precursor_mz (or_intror Hu)).
  reflexivity.
Qed.

(** A charge that is a text passes [_is_valid_charge] and makes the charge
    path of both derivations raise [TypeError]. *)
Theorem text_charge_raises_type_error (s : Spectrum) (e : bool) (t : string) :
  field s "charge" = VStr t ->
  (field s "precursor_mz" <> VNone ->
   e = false \/ adduct_unresolved s ->
   out (derive_parent_mass_from_precursor_mz (Some s) e) = Raise TypeError)
  /\ (field s "parent_mass" <> VNone ->
      adduct_unresolved s ->
      out (derive_precursor_mz_from_parent_mass (Some s)) = Raise TypeError).
Proof.
  intros Hc.
  assert (He : effective_charge s = VStr t) by (unfold effective_charge; rewrite Hc; reflexivity).
  split.
  - intros Hp Hpath. unfold derive_parent_mass_from_precursor_mz. cbv zeta.
    rewrite out_bind, out_get.
    destruct (field s "precursor_mz") as [|mz|u] eqn:E; [congruence| |];
      cbn [is_None]; rewrite out_bind, get_charge_out, out_bind;
      rewrite (adduct_branch_falls_through s e _ Hpath), He; reflexivity.
  - intros Hp Hu. unfold derive_precursor_mz_from_parent_mass. cbv zeta.
    rewrite out_bind, out_get.
    destruct (field s "parent_mass") as [|pm|u] eqn:E; [congruence| |];
      cbn [is_None]; rewrite out_bind;
      rewrite (precursor_adduct_branch_falls_through s _ Hu);
      rewrite out_bind, get_charge_out, He; reflexivity.
Qed.

(** Without a usable charge the ionmode decides: "positive" takes one proton
    mass off the precursor m/z, "negative" adds one, anything else gives no
    parent mass. *)
Theorem parent_mass_from_ionmode (s : Spectrum) (e : bool) (mz : Q) :
  field s "precursor_mz" = VNum mz ->
  charge_present_and_nonzero (field s "charge") = false ->
  e = false \/ adduct_unresolved s ->
  (is_text (field s "ionmode") "positive" = true ->
   exists r, out (derive_parent_mass_from_precursor_mz (Some s) e) = Return (VNum r)
             /\ (r == mz - PROTON_MASS)%Q)
  /\ (is_text (field s "ionmode") "negative" = true ->
      exists r, out (derive_parent_mass_from_precursor_mz (Some s) e) = Return (VNum r)
                /\ (r == mz + PROTON_MASS)%Q)
  /\ (is_text (field s "ionmode") "positive" = false ->
      is_text (field s "ionmode") "negative" = false ->
      out (derive_parent_mass_from_precursor_mz (Some s) e) = Return VNone).
Proof.
  intros Hp Hc Hpath. split; [|split].
  - intros Hi. eexists. split.
    + apply (parent_mass_charge_path s e mz 1); [exact Hp|exact Hpath| |discriminate].
      unfold effective_charge. rewrite Hc, Hi. reflexivity.
    + change (Qabs 1) with 1%Q. ring.
  - intros Hi. eexists. split.
    + apply (parent_mass_charge_path s e mz (-1)); [exact Hp|exact Hpath| |discriminate].
      unfold effective_charge. rewrite Hc, Hi.
      destruct (is_text (field s "ionmode") "positive") eqn:Ep; [|reflexivity].
      destruct (field s "ionmode") as [| |u]; try discriminate.
      cbn [is_text] in Hi, Ep. apply String.eqb_eq in Hi, Ep. congruence.
    + change (Qabs (-1)) with 1%Q. ring.
  - intros Hpos Hneg. apply parent_mass_no_path; [congruence|exact Hpath|].
    unfold effective_charge. rewrite Hc, Hpos, Hneg. reflexivity.
Qed.









(** The derivations depend on the spectrum through four metadata fields
    only: peaks and every other field leave trace and outcome as they
    are. *)
Theorem derivations_read_four_fields (s s' : Spectrum) (e : bool) :
  field s "charge" = field s' "charge" ->
  field s "ionmode" = field s' "ionmode" ->
  field s "adduct" = field s' "adduct" ->
  (field s "precursor_mz" = field s' "precursor_mz" ->
   derive_parent_mass_from_precursor_mz (Some s) e
   = derive_parent_mass_from_precursor_mz (Some s') e)
  /\ (field s "parent_mass" = field s' "parent_mass" ->
      derive_precursor_mz_from_parent_mass (Some s)
      = derive_precursor_mz_from_parent_mass (Some s')).
Proof.
  intros Hc Hi Ha. split; intros Hp.
  - unfold derive_parent_mass_from_precursor_mz, _get_charge.
    rewrite !Spectrum_get_field, Hc, Hi, Ha, Hp. reflexivity.
  - unfold derive_precursor_mz_from_parent_mass, _get_charge.
    rewrite !Spectrum_get_field, Hc, Hi, Ha, Hp. reflexivity.
Qed.

End MassDerivationMore.

(** ** More on the annotation validator *)

Section AnnotationValidatorMore.
Context `{StructureCollaborators}.

Ltac run_more :=
  cbn [mbind M_bind M_bind_def mret M_ret M_ret_def fst snd app out trace negb
       py_slice_to py_eq raise verdict_of log_records List.filter is_log length].

(** One case analysis of [require_annotation]: its decision, what it
    returns, and how many records it logs. *)
Lemma require_annotation_cases s :
  verdict_of (out (require_annotation (Some s))) = annotation_verdict s
  /\ (forall r, out (require_annotation (Some s)) = Return (Some r) -> r = s)
  /\ log_records (trace (require_annotation (Some s)))
     = match out (require_annotation (Some s)) with
       | Return None => 1%nat
       | _ => 0%nat
       end.
Proof.
  unfold annotation_verdict, require_annotation.
  unfold Spectrum_clone, Spectrum_get, call, log, emit. cbv zeta.
  run_more.
  fold (field s "smiles") (field s "inchi") (field s "inchikey").
  destruct (is_valid_smiles (field s "smiles")); run_more;
    [|repeat split; intros; discriminate].
  destruct (is_valid_inchikey (field s "inchikey")); run_more;
    [|repeat split; intros; discriminate].
  destruct (is_valid_inchi (field s "inchi")); run_more;
    [|repeat split; intros; discriminate].
  destruct (field s "inchikey") as [|q|k]; run_more;
    [repeat split; intros; discriminate|repeat split; intros; discriminate|].
  destruct (convert_inchi_to_inchikey (field s "inchi")) as [|q1|k1] eqn:E1; run_more;
    [repeat split; intros; discriminate|repeat split; intros; discriminate|].
  destruct (String.eqb (String.substring 0 14 k) (String.substring 0 14 k1)); run_more;
    [|rewrite ?E1; run_more; repeat split; intros; discriminate].
  destruct (convert_inchi_to_inchikey (convert_smiles_to_inchi (field s "smiles")))
    as [|q2|k2] eqn:E2; run_more;
    [repeat split; intros; discriminate|repeat split; intros; discriminate|].
  destruct (String.eqb (String.substring 0 14 k) (String.substring 0 14 k2)); run_more;
    [|rewrite ?E2; run_more; repeat split; intros; discriminate].
  repeat split. intros r [= <-]. reflexivity.
Qed.


(** A spectrum that [require_annotation] returns is the one it was given:
    the filter changes nothing. *)
Theorem require_annotation_returns_its_input (s r : Spectrum) :
  out (require_annotation (Some s)) = Return (Some r) -> r = s.
Proof. apply require_annotation_cases. Qed.

(** Every discard is logged, once; a kept spectrum and an exception leave
    no log record. *)
Theorem require_annotation_logs_each_discard_once (s : Spectrum) :
  log_records (trace (require_annotation (Some s)))
  = match out (require_annotation (Some s)) with
    | Return None => 1%nat
    | _ => 0%nat
    end.
Proof. apply require_annotation_cases. Qed.

(** Only the first 14 characters of the InChIKey take part in the two
    matching checks: replacing a valid key by another valid key with the
    same first 14 characters leaves the decision as it is. *)
Theorem require_annotation_ignores_key_suffix (s : Spectrum) (k k' : string) :
  field s "inchikey" = VStr k ->
  is_valid_inchikey (VStr k) = is_valid_inchikey (VStr k') ->
  String.substring 0 14 k = String.substring 0 14 k' ->
  verdict_of (out (require_annotation (Some (Spectrum_set s "inchikey" (VStr k')))))
  = verdict_of (out (require_annotation (Some s))).
Proof.
  intros Hk Hv H14.
  rewrite (proj1 (require_annotation_cases s)).
  rewrite (proj1 (require_annotation_cases (Spectrum_set s "inchikey" (VStr k')))).
  unfold annotation_verdict. rewrite !field_set. cbn [decide]. cbv zeta.
  change (if decide ("inchikey" = "smiles") then VStr k' else field s "smiles")
    with (field s "smiles").
  change (if decide ("inchikey" = "inchi") then VStr k' else field s "inchi")
    with (field s "inchi").
  change (if decide ("inchikey" = "inchikey") then VStr k' else field s "inchikey")
    with (VStr k').
  rewrite Hk, Hv, H14. reflexivity.
Qed.

(** A conversion that does not return a text (a failed one returns [None])
    is sliced all the same: once the three validity checks have passed, the
    filter raises [TypeError] instead of discarding the spectrum, and logs
    nothing. *)
Theorem require_annotation_failed_conversion_raises (s : Spectrum) :
  is_valid_smiles (field s "smiles") = true ->
  is_valid_inchikey (field s "inchikey") = true ->
  is_valid_inchi (field s "inchi") = true ->
  (forall t, convert_inchi_to_inchikey (field s "inchi") <> VStr t) ->
  out (require_annotation (Some s)) = Raise TypeError
  /\ log_records (trace (require_annotation (Some s))) = 0%nat.
Proof.
  intros H1 H2 H3 Hconv.
  destruct (require_annotation_cases s) as (Hv & _ & Hl).
  assert (Ha : annotation_verdict s = Raise TypeError).
  { unfold annotation_verdict. cbv zeta. rewrite H1, H2, H3. cbn [negb].
    destruct (field s "inchikey") as [|q|k]; try reflexivity.
    destruct (convert_inchi_to_inchikey (field s "inchi")) as [|q1|k1] eqn:E;
      try reflexivity.
    exfalso. exact (Hconv k1 eq_refl). }
  rewrite Ha in Hv.
  destruct (out (require_annotation (Some s))) as [[r|]|e] eqn:Eo; try discriminate Hv.
  cbn [verdict_of] in Hv. injection Hv as ->. split; [reflexivity|exact Hl].
Qed.

(** The filter depends on the spectrum through [smiles], [inchi] and
    [inchikey] only: two spectra that agree on them get the same decision
    and the same trace. *)
Theorem require_annotation_reads_three_fields (s s' : Spectrum) :
  field s "smiles" = field s' "smiles" ->
  field s "inchi" = field s' "inchi" ->
  field s "inchikey" = field s' "inchikey" ->
  verdict_of (out (require_annotation (Some s)))
  = verdict_of (out (require_annotation (Some s')))
  /\ trace (require_annotation (Some s)) = trace (require_annotation (Some s')).
Proof.
  intros Hs Hi Hk. split.
  - rewrite (proj1 (require_annotation_cases s)), (proj1 (require_annotation_cases s')).
    unfold annotation_verdict. rewrite Hs, Hi, Hk. reflexivity.
  - unfold require_annotation, Spectrum_clone, Spectrum_get, call, log, emit.
    run_more.
    fold (field s "smiles") (field s "inchi") (field s "inchikey").
    fold (field s' "smiles") (field s' "inchi") (field s' "inchikey").
    rewrite Hs, Hi, Hk.
    destruct (is_valid_smiles (field s' "smiles")); run_more; [|reflexivity].
    destruct (is_valid_inchikey (field s' "inchikey")); run_more; [|reflexivity].
    destruct (is_valid_inchi (field s' "inchi")); run_more; [|reflexivity].
    destruct (field s' "inchikey") as [|q|k]; run_more; try reflexivity.
    destruct (convert_inchi_to_inchikey (field s' "inchi")) as [|q1|k1] eqn:E1; run_more;
      try reflexivity.
    destruct (String.eqb (String.substring 0 14 k) (String.substring 0 14 k1)); run_more;
      [|rewrite ?E1; reflexivity].
    destruct (convert_inchi_to_inchikey (convert_smiles_to_inchi (field s' "smiles")))
      as [|q2|k2] eqn:E2; run_more; try reflexivity.
    destruct (String.eqb (String.substring 0 14 k) (String.substring 0 14 k2)); run_more;
      [|rewrite ?E2; reflexivity].
    reflexivity.
Qed.

End AnnotationValidatorMore.

(** ** The importer *)

Section ImporterProperties.
Import Usi.
Context `{Collaborators}.

Lemma heads_Some (rows : list (list json)) (h : list json) (fuel : nat) :
  heads rows = Some h ->
  h = column 0 rows
  /\ shortest rows (S fuel) = S (shortest (map (@tail json) rows) fuel).
Proof.
  revert h. induction rows as [|r rows IH]; intros h; cbn [heads].
  - intros [= <-]. split; reflexivity.
  - destruct r as [|x r]; [discriminate|].
    destruct (heads rows) as [h'|]; [|discriminate]. intros [= <-].
    destruct (IH h' eq_refl) as [-> Hs]. split; [reflexivity|].
    cbn [shortest fold_right map tail length]. fold (shortest rows (S fuel)).
    fold (shortest (map (@tail json) rows) fuel). rewrite Hs. lia.
Qed.

Lemma heads_None (rows : list (list json)) (fuel : nat) :
  heads rows = None -> shortest rows fuel = 0%nat.
Proof.
  induction rows as [|r rows IH]; cbn [heads]; [discriminate|].
  destruct r as [|x r]; [reflexivity|].
  destruct (heads rows) as [h'|]; [discriminate|]. intros _.
  cbn [shortest fold_right]. fold (shortest rows fuel). rewrite (IH eq_refl). lia.
Qed.

Lemma column_tail (i : nat) (rows : list (list json)) :
  column i (map (@tail json) rows) = column (S i) rows.
Proof.
  unfold column. rewrite map_map. apply map_ext. intros [|x r]; [destruct i|]; reflexivity.
Qed.

(** [zip] transposes: tuple [i] holds the items at position [i] of every
    row, for the positions all rows have. *)
Lemma zip_rows_columns (fuel : nat) : forall rows : list (list json),
  zip_rows fuel rows = map (fun i => column i rows) (seq 0 (shortest rows fuel)).
Proof.
  induction fuel as [|fuel IH]; intros rows.
  - cbn [zip_rows].
    assert (Hs : shortest rows 0 = 0%nat).
    { induction rows as [|r rows IHr]; [reflexivity|].
      cbn [shortest fold_right]. fold (shortest rows 0). rewrite IHr. lia. }
    rewrite Hs. reflexivity.
  - cbn [zip_rows]. destruct (heads rows) as [h|] eqn:Eh.
    + destruct (heads_Some _ _ fuel Eh) as [-> Hs]. rewrite IH, Hs.
      cbn [seq map]. f_equal. rewrite <- seq_shift, map_map.
      apply map_ext. intros i. apply column_tail.
    + rewrite (heads_None _ (S fuel) Eh). reflexivity.
Qed.

Lemma iter_all_lists (rows : list (list json)) :
  iter_all (map JList rows) = inr rows.
Proof.
  induction rows as [|r rows IH]; [reflexivity|].
  cbn [map iter_all py_iter]. rewrite IH. reflexivity.
Qed.


Lemma shortest_le (rows : list (list json)) (fuel : nat) :
  (shortest rows fuel <= fuel)%nat
  /\ Forall (fun r => (shortest rows fuel <= length r)%nat) rows.
Proof.
  induction rows as [|r rows [IH1 IH2]]; cbn [shortest fold_right].
  - split; [lia|constructor].
  - fold (shortest rows fuel). split; [lia|]. constructor; [lia|].
    eapply Forall_impl; [exact IH2|]. cbn. intros. lia.
Qed.

Lemma shortest_ge (rows : list (list json)) (fuel k : nat) :
  (k <= fuel)%nat -> Forall (fun r => (k <= length r)%nat) rows ->
  (k <= shortest rows fuel)%nat.
Proof.
  intros Hf. induction 1 as [|r rows Hr _ IH]; cbn [shortest fold_right]; [exact Hf|].
  fold (shortest rows fuel). lia.
Qed.

Lemma contains_key (d : list (string * json)) (key : string) :
  existsb (fun kv => String.eqb (fst kv) key) d
  = match dict_get d key with Some _ => true | None => false end.
Proof.
  unfold dict_get. induction d as [|kv d IH]; [reflexivity|].
  cbn [existsb find]. destruct (String.eqb (fst kv) key); [reflexivity|exact IH].
Qed.

Lemma zip_star_rows (first : list json) (others : list (list json)) :
  py_zip_star (JList (map JList (first :: others)))
  = inr (map (fun i => column i (first :: others))
           (seq 0 (shortest (first :: others) (length first)))).
Proof.
  unfold py_zip_star. cbn [py_iter]. rewrite iter_all_lists.
  rewrite zip_rows_columns. reflexivity.
Qed.

(** The request and the two transport-level failures: an error of
    [requests.get] propagates; a 404 gives [None] without a look at the
    body and without a log record; a body that is not JSON gives [None]
    with a warning, whatever the status. *)
Theorem load_from_usi_transport (usi server : string) :
  (forall e, requests_get (server ++ "/json/?usi=" ++ usi)%string = inl e ->
     load_from_usi usi server
     = ([HttpGet (server ++ "/json/?usi=" ++ usi)%string], inl e))
  /\ (forall response,
        requests_get (server ++ "/json/?usi=" ++ usi)%string = inr response ->
        status_code response = 404%Z ->
        load_from_usi usi server
        = ([HttpGet (server ++ "/json/?usi=" ++ usi)%string], inr None))
  /\ (forall response,
        requests_get (server ++ "/json/?usi=" ++ usi)%string = inr response ->
        status_code response <> 404%Z ->
        body response = None ->
        load_from_usi usi server
        = ([HttpGet (server ++ "/json/?usi=" ++ usi)%string;
            Log WARNING "Failed to unpack json (JSONDecodeError)."],
           inr None)).
Proof.
  unfold load_from_usi. cbv zeta. split; [|split].
  - intros e ->. reflexivity.
  - intros response -> ->. reflexivity.
  - intros response -> Hs ->.
    destruct (Z.eqb_spec (status_code response) 404); [contradiction|reflexivity].
Qed.

(** No data: a JSON [null], an object without the key "peaks" and an empty
    list of peaks each give [None] with an info record; nothing is built and
    nothing is raised. *)
Theorem load_from_usi_no_data (usi server : string) (response : Response) :
  requests_get (server ++ "/json/?usi=" ++ usi)%string = inr response ->
  status_code response <> 404%Z ->
  (body response = Some JNull
   \/ (exists d, body response = Some (JDict d) /\ dict_get d "peaks" = None) ->
   load_from_usi usi server
   = ([HttpGet (server ++ "/json/?usi=" ++ usi)%string;
       Log INFO "Empty spectrum found (no data found). Will not be imported."],
      inr None))
  /\ ((exists d, body response = Some (JDict d) /\ dict_get d "peaks" = Some (JList [])) ->
      load_from_usi usi server
      = ([HttpGet (server ++ "/json/?usi=" ++ usi)%string;
          Log INFO "Empty spectrum found (no peaks in 'peaks_json'). Will not be imported."],
         inr None)).
Proof.
  intros Hget Hs. unfold load_from_usi. cbv zeta. rewrite Hget.
  destruct (Z.eqb_spec (status_code response) 404); [contradiction|]. split.
  - intros [->|(d & -> & Hd)]; [reflexivity|].
    cbn [py_contains]. rewrite contains_key, Hd. reflexivity.
  - intros (d & -> & Hd). cbn [py_contains py_getitem]. rewrite contains_key, Hd.
    reflexivity.
Qed.

(** Peaks become columns.  For peaks that are rows of at least two items,
    one of them of exactly two, the spectrum is built from the first items
    of the rows as m/z values and the second items as intensities, in the
    order of the rows, whatever else a longer row holds; its metadata are
    the USI, the server and the precursor m/z of the document ([None] if it
    has none).  What the construction returns or raises is the result. *)
Theorem load_from_usi_builds_spectrum (usi server : string) (response : Response)
    (d : list (string * json)) (rows : list (list json)) :
  requests_get (server ++ "/json/?usi=" ++ usi)%string = inr response ->
  status_code response <> 404%Z ->
  body response = Some (JDict d) ->
  dict_get d "peaks" = Some (JList (map JList rows)) ->
  Forall (fun r => (2 <= length r)%nat) rows ->
  Exists (fun r => length r = 2%nat) rows ->
  load_from_usi usi server
  = ([HttpGet (server ++ "/json/?usi=" ++ usi)%string],
     match new_Spectrum (column 0 rows) (column 1 rows)
             [("usi", JStr usi); ("server", JStr server);
              ("precursor_mz", default JNull (dict_get d "precursor_mz"))] with
     | inl e => inl e
     | inr s => inr (Some s)
     end).
Proof.
  intros Hget Hs Hb Hd Hall Hex. unfold load_from_usi. cbv zeta. rewrite Hget.
  destruct (Z.eqb_spec (status_code response) 404); [contradiction|]. rewrite Hb.
  cbn [py_contains py_getitem]. rewrite contains_key, Hd.
  destruct rows as [|first others]; [inversion Hex|].
  cbn [py_len py_iter map length]. f_equal. unfold build.
  change (JList (JList first :: map JList others))
    with (JList (map JList (first :: others))).
  rewrite zip_star_rows.
  assert (Hn : shortest (first :: others) (length first) = 2%nat).
  { destruct (shortest_le (first :: others) (length first)) as [_ Hle].
    assert (Hge : (2 <= shortest (first :: others) (length first))%nat).
    { apply shortest_ge; [|exact Hall]. apply Forall_cons in Hall as [Hf _]. exact Hf. }
    apply Exists_exists in Hex as (r & Hin & Hr).
    rewrite Forall_forall in Hle. specialize (Hle r Hin). lia. }
  rewrite Hn. reflexivity.
Qed.

(** Peaks of another shape are not a soft failure.  A "peaks" entry that is
    [null], a boolean or a number raises [TypeError]; rows with a row of
    fewer than two items, or with more than two items in every row, raise
    [ValueError], which the handler of [JSONDecodeError] does not catch. *)
Theorem load_from_usi_misshapen_peaks (usi server : string) (response : Response)
    (d : list (string * json)) (peaks : json) :
  requests_get (server ++ "/json/?usi=" ++ usi)%string = inr response ->
  status_code response <> 404%Z ->
  body response = Some (JDict d) ->
  dict_get d "peaks" = Some peaks ->
  (match peaks with JNull | JBool _ | JNum _ => True | _ => False end ->
   load_from_usi usi server
   = ([HttpGet (server ++ "/json/?usi=" ++ usi)%string], inl PyTypeError))
  /\ (forall rows,
        peaks = JList (map JList rows) ->
        rows <> [] ->
        Exists (fun r => (length r < 2)%nat) rows
        \/ Forall (fun r => (2 < length r)%nat) rows ->
        load_from_usi usi server
        = ([HttpGet (server ++ "/json/?usi=" ++ usi)%string], inl PyValueError)).
Proof.
  intros Hget Hs Hb Hd. unfold load_from_usi. cbv zeta. rewrite Hget.
  destruct (Z.eqb_spec (status_code response) 404); [contradiction|]. rewrite Hb.
  cbn [py_contains py_getitem]. rewrite contains_key, Hd. split.
  - destruct peaks; try contradiction; reflexivity.
  - intros rows -> Hne Hshape. destruct rows as [|first others]; [congruence|].
    cbn [py_len py_iter map length]. f_equal. unfold build.
    change (JList (JList first :: map JList others))
      with (JList (map JList (first :: others))).
    rewrite zip_star_rows.
    destruct (shortest_le (first :: others) (length first)) as [Hlef Hle].
    assert (Hn : shortest (first :: others) (length first) <> 2%nat).
    { destruct Hshape as [Hex|Hall].
      - apply Exists_exists in Hex as (r & Hin & Hr).
        rewrite Forall_forall in Hle. specialize (Hle r Hin). lia.
      - assert (Hge : (3 <= shortest (first :: others) (length first))%nat).
        { apply shortest_ge; [apply Forall_cons in Hall as [Hf _]; exact Hf|exact Hall]. }
        lia. }
    destruct (shortest (first :: others) (length first)) as [|[|[|k]]];
      [reflexivity|reflexivity|congruence|reflexivity].
Qed.

End ImporterProperties.

(** ** More on the pipeline *)

Lemma total_incr name c : total (Pipeline.incr name c) = S (total c).
Proof.
  unfold total, Pipeline.incr, Pipeline.count.
  destruct (c !! name) as [v|] eqn:E; cbn [default].
  - rewrite <- insert_delete_eq.
    rewrite map_fold_insert_L; [|intros; cbv beta; lia|apply lookup_delete_eq].
    rewrite (map_fold_delete_L _ _ name v c); [cbv beta delta [id]; lia|intros; cbv beta; lia|exact E].
  - rewrite map_fold_insert_L; [cbv beta; lia|intros; cbv beta; lia|exact E].
Qed.

Section PipelineMore.
Import Pipeline.
Context `{FilterCatalog}.

Lemma find_entry_name name e : find_entry name = Some e -> In name (map entry_name ALL_FILTERS).
Proof.
  unfold find_entry. intros Hf. apply find_some in Hf as [Hin Hn].
  apply String.eqb_eq in Hn. subst name. apply in_map. exact Hin.
Qed.

Lemma index_of_nth name names :
  In name names -> nth_error names (index_of name names) = Some name.
Proof.
  induction names as [|n names IH]; [contradiction|]. intros Hin. cbn [index_of].
  destruct (String.eqb_spec n name) as [->|Hn]; [reflexivity|].
  cbn [nth_error]. apply IH. destruct Hin; [contradiction|assumption].
Qed.

Lemma ordinal_inj a b :
  known a -> known b -> ordinal (step_name a) = ordinal (step_name b) ->
  step_name a = step_name b.
Proof.
  intros [ea Ha] [eb Hb] Ho. unfold ordinal in Ho.
  apply find_entry_name, index_of_nth in Ha. apply find_entry_name, index_of_nth in Hb.
  rewrite Ho in Ha. congruence.
Qed.

Lemma Forall_insert_by_ordinal (P : ProcessingStep -> Prop) st steps :
  P st -> Forall P steps -> Forall P (insert_by_ordinal st steps).
Proof.
  intros Hst. induction 1 as [|x rest Hx Hrest IH]; cbn [insert_by_ordinal].
  - repeat constructor. exact Hst.
  - destruct (Nat.ltb _ _); repeat constructor; assumption.
Qed.

Lemma insert_by_ordinal_ordered st steps :
  known st -> Forall known steps ->
  Forall (fun x => step_name x <> step_name st) steps ->
  in_catalog_order steps -> in_catalog_order (insert_by_ordinal st steps).
Proof.
  unfold in_catalog_order. intros Hst Hk Hne Hs.
  induction Hs as [|x rest Hrest IH Hx]; cbn [insert_by_ordinal].
  - repeat constructor.
  - apply Forall_cons in Hk as [Hkx Hkrest]. apply Forall_cons in Hne as [Hnx Hnrest].
    destruct (Nat.ltb_spec (ordinal (step_name st)) (ordinal (step_name x))) as [Hlt|Hge].
    + constructor; [constructor; assumption|]. constructor; [exact Hlt|].
      eapply Forall_impl; [exact Hx|]. cbn. intros y Hy. lia.
    + constructor; [apply IH; assumption|].
      apply Forall_insert_by_ordinal; [|exact Hx].
      assert (ordinal (step_name x) <> ordinal (step_name st))
        by (intros E; apply Hnx; apply ordinal_inj; assumption).
      lia.
Qed.

Lemma put_step_ordered st steps :
  known st -> Forall known steps -> in_catalog_order steps ->
  in_catalog_order (put_step st steps) /\ Forall known (put_step st steps).
Proof.
  intros Hst Hk Hs. unfold put_step.
  set (rest := List.filter (fun x => negb (String.eqb (step_name x) (step_name st))) steps).
  assert (Hkr : Forall known rest).
  { apply List.Forall_forall. intros x Hx. apply filter_In in Hx as [Hx _].
    rewrite List.Forall_forall in Hk. exact (Hk x Hx). }
  assert (Hnr : Forall (fun x => step_name x <> step_name st) rest).
  { apply List.Forall_forall. intros x Hx. apply filter_In in Hx as [_ Hx].
    destruct (String.eqb_spec (step_name x) (step_name st)); [discriminate|assumption]. }
  assert (Hsr : in_catalog_order rest).
  { unfold in_catalog_order, rest. clear -Hs.
    induction Hs as [|x l Hl IH Hx]; cbn [List.filter]; [constructor|].
    destruct (negb _); [|exact IH]. constructor; [exact IH|].
    apply List.Forall_forall. intros y Hy. apply filter_In in Hy as [Hy _].
    rewrite List.Forall_forall in Hx. exact (Hx y Hy). }
  split; [apply insert_by_ordinal_ordered; assumption|].
  apply Forall_insert_by_ordinal; assumption.
Qed.

Lemma add_matchms_filter_ordered p name params p' :
  add_matchms_filter p name params = inr p' ->
  Forall known (known_steps p) -> in_catalog_order (known_steps p) ->
  in_catalog_order (known_steps p') /\ Forall known (known_steps p').
Proof.
  unfold add_matchms_filter, resolve.
  destruct (find_entry name) as [e|] eqn:Ee; [|discriminate].
  destruct (forallb _ _); [|discriminate]. intros [= <-] Hk Hs. cbn [known_steps].
  apply put_step_ordered; [|exact Hk|exact Hs].
  unfold known. cbn [step_name]. rewrite Ee. eauto.
Qed.

Lemma add_filter_ordered p st p' :
  add_filter p st = inr p' ->
  Forall known (known_steps p) -> in_catalog_order (known_steps p) ->
  in_catalog_order (known_steps p') /\ Forall known (known_steps p').
Proof.
  destruct st as [name|name params|f params]; cbn [add_filter].
  - apply add_matchms_filter_ordered.
  - apply add_matchms_filter_ordered.
  - intros [= <-]. cbn [add_custom_filter known_steps]. auto.
Qed.

Lemma add_filters_ordered sts : forall p p',
  add_filters p sts = inr p' ->
  Forall known (known_steps p) -> in_catalog_order (known_steps p) ->
  in_catalog_order (known_steps p') /\ Forall known (known_steps p').
Proof.
  induction sts as [|st sts IH]; intros p p'; cbn [add_filters].
  - intros [= <-]. auto.
  - destruct (add_filter p st) as [e|p1] eqn:E; [discriminate|]. intros Hrest Hk Hs.
    destruct (add_filter_ordered _ _ _ E Hk Hs) as [Hs1 Hk1]. exact (IH _ _ Hrest Hk1 Hs1).
Qed.

Lemma configure_ordered calls : forall p p',
  configure p calls = inr p' ->
  Forall known (known_steps p) -> in_catalog_order (known_steps p) ->
  in_catalog_order (known_steps p') /\ Forall known (known_steps p').
Proof.
  induction calls as [|c calls IH]; intros p p'; cbn [configure].
  - intros [= <-]. auto.
  - destruct c as [st|f params].
    + destruct (add_filter p st) as [e|p1] eqn:E; [discriminate|]. intros Hrest Hk Hs.
      destruct (add_filter_ordered _ _ _ E Hk Hs) as [Hs1 Hk1]. exact (IH _ _ Hrest Hk1 Hs1).
    + intros Hrest. apply (IH _ _ Hrest).
Qed.

(** However a processor is configured, its known steps are in the order of
    the catalog, each filter at most once, and each is bound to a callable:
    the order of the calls does not show. *)
Theorem processing_steps_in_catalog_order (preset : option string)
    (p0 : SpectrumProcessor) (calls : list config_call) (p : SpectrumProcessor) :
  construct preset = inr p0 ->
  configure p0 calls = inr p ->
  in_catalog_order (processing_steps p)
  /\ map bound_name (filters p)
     = map step_name (processing_steps p) ++ map bound_name (custom_filters p).
Proof.
  intros H0 Hc.
  assert (Hinit : in_catalog_order (known_steps p0) /\ Forall known (known_steps p0)).
  { unfold construct in H0. destruct preset as [name|].
    - destruct (List.find _ _) as [np|]; [|discriminate].
      apply (add_filters_ordered _ _ _ H0); constructor.
    - injection H0 as <-. split; constructor. }
  destruct Hinit as [Hs0 Hk0].
  destruct (configure_ordered _ _ _ Hc Hk0 Hs0) as [Hs Hk].
  split; [exact Hs|]. unfold filters, processing_steps. rewrite map_app. f_equal.
  clear -Hk. induction Hk as [|st steps [e He] _ IH]; [reflexivity|].
  cbn [omap list_omap map]. unfold bind_step at 1. rewrite He. cbn [map bound_name].
  f_equal. exact IH.
Qed.

Lemma run_filters_accounts fs : forall s r res r',
  run_filters add_to_report fs s r = (res, r') ->
  total (counter_removed_spectrums r')
  = (total (counter_removed_spectrums r) + match res with Some _ => 0 | None => 1 end)%nat.
Proof.
  induction fs as [|f fs IH]; intros s r res r'; cbn [run_filters].
  - intros [= <- <-]. lia.
  - destruct (bound_call f s) as [s'|].
    + intros Hr. rewrite (IH _ _ _ _ Hr). reflexivity.
    + intros [= <- <-]. cbn [add_to_report counter_removed_spectrums].
      rewrite total_incr. lia.
Qed.

(** A batch accounts for every spectrum: the processed counter is the
    number of input spectra, and the spectra returned together with the
    removals attributed to filters make up the input. *)
Theorem process_spectrums_accounts_for_every_spectrum (p : SpectrumProcessor)
    (l out : list Spectrum) (report : ProcessingReport) :
  process_spectrums p l = inr (out, report) ->
  counter_number_processed report = length l
  /\ (length out + total (counter_removed_spectrums report))%nat = length l.
Proof.
  intros Hrun. split; [exact (process_spectrums_counts_spectra p l _ _ _ Hrun)|].
  unfold process_spectrums in Hrun.
  assert (Hgen : forall l r out r',
    process_spectrums_observed count_processed add_to_report p l r = inr (out, r') ->
    (length out + total (counter_removed_spectrums r'))%nat
    = (length l + total (counter_removed_spectrums r))%nat).
  { clear. induction l as [|s l IH]; intros r out r'; cbn [process_spectrums_observed length].
    - intros [= <- <-]. reflexivity.
    - unfold process_spectrum_observed at 1.
      destruct (filters p) as [|f fs]; [discriminate|].
      destruct (run_filters add_to_report (f :: fs) s (count_processed r)) as [res r1] eqn:E.
      destruct (process_spectrums_observed _ _ p l r1) as [e|[outs r2]] eqn:E2; [discriminate|].
      intros [= <- <-]. specialize (IH _ _ _ E2).
      apply run_filters_accounts in E. cbn [count_processed counter_removed_spectrums] in E.
      destruct res; cbn [length]; lia. }
  rewrite (Hgen _ _ _ _ Hrun). cbn [new_report counter_removed_spectrums].
  unfold total. rewrite map_fold_empty. lia.
Qed.

End PipelineMore.

(** * The properties on the sample data *)

#[local] Existing Instances sample_mass sample_structures sample_catalog.

Lemma sample_doubly_charged_unresolved : adduct_unresolved sample_doubly_charged.
Proof. intros m c Hr. vm_compute in Hr. discriminate Hr. Qed.

Lemma sample_uncharged_unresolved : adduct_unresolved sample_uncharged.
Proof. intros m c Hr. vm_compute in Hr. discriminate Hr. Qed.

Lemma sample_structures_contract : conversions_return_text.
Proof.
  split; [|split]; intros v Hv.
  - destruct v as [|q|t]; try discriminate Hv. exists t. reflexivity.
  - cbn in Hv |- *. destruct (py_eq v (VStr methane_inchi)); [eexists; reflexivity|].
    destruct (py_eq v (VStr water_inchi)); [eexists; reflexivity|discriminate Hv].
  - cbn in Hv |- *. destruct (py_eq v (VStr methane_smiles)); [eexists; reflexivity|].
    destruct (py_eq v (VStr water_smiles)); [eexists; reflexivity|discriminate Hv].
Qed.


(** Methane with the InChIKey of water fails the fourth check. *)
Lemma require_annotation_checks_in_order_witness :
  conversions_return_text
  /\ out (require_annotation (Some mismatched_methane)) = Return None
  /\ first_failing mismatched_methane = Some InchiMatchesInchikey
  /\ out (require_annotation (Some annotated_methane)) = Return (Some annotated_methane).
Proof.
  split; [exact sample_structures_contract|].
  destruct (require_annotation_checks_in_order mismatched_methane
              sample_structures_contract) as [Hout _].
  destruct (require_annotation_checks_in_order annotated_methane
              sample_structures_contract) as [Hout' _].
  split; [rewrite Hout; reflexivity|]. split; [reflexivity|].
  rewrite Hout'. reflexivity.
Defined.

Lemma parent_mass_adduct_precedence_witness :
  out (derive_parent_mass_from_precursor_mz (Some sample_dimer) true)
  = Return (VNum (((4455 # 10) - (1007276 # 1000000)) / 2))
  /\ forall s' : Spectrum,
       field s' "precursor_mz" = field sample_dimer "precursor_mz" ->
       field s' "adduct" = field sample_dimer "adduct" ->
       out (derive_parent_mass_from_precursor_mz (Some s') true)
       = Return (VNum (((4455 # 10) - (1007276 # 1000000)) / 2)).
Proof.
  apply (parent_mass_adduct_precedence sample_dimer (4455 # 10) 2 (1007276 # 1000000)).
  - reflexivity.
  - reflexivity.
  - discriminate.
Defined.

(** Charge -2 at m/z 200, a spectrum without adduct, charge and ionmode, and
    a charge that is the text "+1". *)
Lemma parent_mass_charge_fallback_witness :
  (exists r,
      out (derive_parent_mass_from_precursor_mz (Some sample_doubly_charged) true)
      = Return (VNum r)
      /\ (r == 200 * Qabs (-2) - (-2) * PROTON_MASS)%Q)
  /\ out (derive_parent_mass_from_precursor_mz (Some sample_uncharged) true)
     = Return VNone
  /\ out (derive_parent_mass_from_precursor_mz (Some sample_text_charge) false)
     = Raise TypeError.
Proof.
  split; [|split].
  - refine (proj1 (parent_mass_charge_fallback sample_doubly_charged true _ _) 200%Q (-2)%Q _ _).
    + discriminate.
    + right. exact sample_doubly_charged_unresolved.
    + reflexivity.
    + split; [reflexivity|discriminate].
  - refine (proj1 (proj2 (parent_mass_charge_fallback sample_uncharged true _ _)) _).
    + discriminate.
    + right. exact sample_uncharged_unresolved.
    + reflexivity.
  - refine (proj2 (proj1 (proj2 (proj2
              (parent_mass_charge_fallback sample_text_charge false _ _))) "+1" _)).
    + discriminate.
    + left. reflexivity.
    + reflexivity.
Defined.

(** C4, the claim as stated: a spectrum with a precursor m/z, the adduct
    path not applying and a charge "+1" that is not zero for
    [_is_valid_charge]; no parent mass is returned, and not [None]: the
    proton correction raises. *)
Lemma parent_mass_charge_fallback_fails_on_text_charge :
  field sample_text_charge "precursor_mz" = VNum 100
  /\ effective_charge sample_text_charge = VStr "+1"
  /\ _is_valid_charge (effective_charge sample_text_charge) = true
  /\ out (derive_parent_mass_from_precursor_mz (Some sample_text_charge) false)
     = Raise TypeError
  /\ forall v,
       out (derive_parent_mass_from_precursor_mz (Some sample_text_charge) false)
       <> Return v.
Proof.
  split; [reflexivity|]. split; [reflexivity|]. split; [reflexivity|].
  split; [reflexivity|]. intros v Hv. vm_compute in Hv. discriminate Hv.
Qed.

Lemma precursor_mz_derivation_cases_witness :
  out (derive_precursor_mz_from_parent_mass (Some sample_doubly_charged)) = Return VNone
  /\ out (derive_precursor_mz_from_parent_mass
            (Some (Spectrum_set sample_dimer "parent_mass" (VNum 222))))
     = Return (VNum (222 * 2 + (1007276 # 1000000)))
  /\ (exists r,
        out (derive_precursor_mz_from_parent_mass
               (Some (Spectrum_set sample_doubly_charged "parent_mass" (VNum 402))))
        = Return (VNum r)
        /\ (r == (402 + (-2) * PROTON_MASS) / Qabs (-2))%Q)
  /\ (out (derive_precursor_mz_from_parent_mass (Some sample_uncharged)) = Return VNone
      /\ last (trace (derive_precursor_mz_from_parent_mass (Some sample_uncharged)))
         = Some charge_and_adduct_missing)
  /\ out (derive_precursor_mz_from_parent_mass (Some sample_text_charge))
     = Raise TypeError.
Proof.
  split; [|split; [|split; [|split]]].
  - apply (proj1 (precursor_mz_derivation_cases sample_doubly_charged)). reflexivity.
  - apply (proj1 (proj2 (precursor_mz_derivation_cases
                           (Spectrum_set sample_dimer "parent_mass" (VNum 222))))).
    + reflexivity.
    + reflexivity.
  - apply (proj1 (proj2 (proj2 (precursor_mz_derivation_cases
             (Spectrum_set sample_doubly_charged "parent_mass" (VNum 402)))))).
    + reflexivity.
    + intros m c Hr. vm_compute in Hr. discriminate Hr.
    + split; [reflexivity|discriminate].
  - apply (proj1 (proj2 (proj2 (proj2 (precursor_mz_derivation_cases sample_uncharged))))).
    + discriminate.
    + exact sample_uncharged_unresolved.
    + reflexivity.
  - refine (proj2 (proj1 (proj2 (proj2 (proj2 (proj2
              (precursor_mz_derivation_cases sample_text_charge))))) "+1" _ _ _)).
    + discriminate.
    + intros m c Hr. vm_compute in Hr. discriminate Hr.
    + reflexivity.
Defined.

(** C6, the claim as stated: a spectrum with a parent mass, an adduct that
    does not resolve and a charge "+1" that is not zero for
    [_is_valid_charge]; no precursor m/z is returned, and not [None]: the
    proton correction raises. *)
Lemma precursor_mz_derivation_fails_on_text_charge :
  field sample_text_charge "parent_mass" = VNum 99
  /\ adduct_unresolved sample_text_charge
  /\ effective_charge sample_text_charge = VStr "+1"
  /\ _is_valid_charge (effective_charge sample_text_charge) = true
  /\ out (derive_precursor_mz_from_parent_mass (Some sample_text_charge))
     = Raise TypeError
  /\ forall v,
       out (derive_precursor_mz_from_parent_mass (Some sample_text_charge))
       <> Return v.
Proof.
  split; [reflexivity|].
  split; [intros m c Hr; vm_compute in Hr; discriminate Hr|].
  split; [reflexivity|]. split; [reflexivity|].
  split; [reflexivity|]. intros v Hv. vm_compute in Hv. discriminate Hv.
Qed.

(** [SpectrumProcessor(predefined_pipeline=None)], as in [test_no_filters]. *)
Lemma process_spectrum_no_filters_witness :
  Pipeline.construct None = inr (Pipeline.mkProcessor [] [])
  /\ Pipeline.process_spectrum (Pipeline.mkProcessor [] []) (with_metadata ∅)
       Pipeline.new_report
     = inl (Pipeline.Raised "TypeError" "No filters to process")
  /\ forall res,
       Pipeline.process_spectrum (Pipeline.mkProcessor [] []) (with_metadata ∅)
         Pipeline.new_report <> inr res.
Proof.
  split; [reflexivity|].
  apply (process_spectrum_no_filters (Pipeline.mkProcessor [] [])). reflexivity.
Defined.

(** A custom filter added to the "minimal" preset before a known filter and
    one added after it both come after the five known filters. *)
Lemma custom_filters_run_last_witness :
  exists p,
    Pipeline.construct (Some "minimal") = inr minimal_processor
    /\ Pipeline.configure minimal_processor sample_calls = inr p
    /\ map Pipeline.bound_name (Pipeline.filters p)
       = ["make_charge_int"; "interpret_pepmass"; "derive_ionmode"; "correct_charge";
          "require_correct_ionmode"; "nonsense_inchikey"; "nonsense_smiles"]
    /\ (exists known,
          Pipeline.filters p = known ++ customs_added sample_calls
          /\ Forall (fun f => Pipeline.is_custom f = false) known
          /\ Forall (fun f => Pipeline.is_custom f = true) (customs_added sample_calls))
    /\ forall s res names,
         Pipeline.executed p s = inr (res, names) ->
         names `prefix_of` map Pipeline.bound_name (Pipeline.filters p)
         /\ (res <> None -> names = map Pipeline.bound_name (Pipeline.filters p)).
Proof.
  eexists. split; [reflexivity|]. split; [reflexivity|]. split; [reflexivity|].
  apply (custom_filters_run_last (Some "minimal") minimal_processor sample_calls);
    reflexivity.
Defined.


(** ** The tests of the test file, replayed *)

(** [test_processing_report_class]: [smiles] set on a clone of each of the
    three spectra and the pairs reported under "test_filter"; nothing is
    removed, nothing changed, three fields added.  The test does not read
    the processed counter, which [add_to_report_as_specified] has at 3. *)
Example test_processing_report_class :
  let processing_report :=
    fold_left
      (fun report s =>
         Pipeline.add_to_report_as_specified report s
           (Some (Spectrum_set s "smiles" (VStr "test"))) "test_filter")
      spectrums Pipeline.new_report in
  Pipeline.counter_removed_spectrums processing_report = ∅
  /\ Pipeline.counter_changed_field processing_report = ∅
  /\ Pipeline.counter_added_field processing_report = {[ "test_filter" := 3%nat ]}
  /\ Pipeline.counter_number_processed processing_report = 3%nat.
Proof.
  cbv zeta. split; [|split; [|split]]; vm_compute; reflexivity.
Qed.

(** [test_filter_spectrums_report]: three spectra through the four filters
    of "minimal" are three processed spectra. *)
Example test_filter_spectrums_report :
  exists out report,
    Pipeline.process_spectrums minimal_processor spectrums = inr (out, report)
    /\ map (fun s => field s "precursor_mz") out = [VNum 100; VNum 102; VNum 104]
    /\ Pipeline.counter_number_processed report = 3%nat
    /\ Pipeline.counter_changed_field report = {[ "make_charge_int" := 2%nat ]}
    /\ Pipeline.counter_added_field report
       = <["interpret_pepmass" := 3%nat]> {[ "derive_ionmode" := 3%nat ]}
    /\ Pipeline.counter_removed_spectrums report = ∅.
Proof. eexists _, _. split; [reflexivity|]. vm_compute. repeat split. Qed.

(** With [add_to_report] incrementing the processed counter, as section 4.3
    words it, the same run counts its twelve forwarded steps. *)
Example report_as_specified_counts_steps :
  exists out report,
    Pipeline.process_spectrums_as_specified minimal_processor spectrums
    = inr (out, report)
    /\ Pipeline.counter_number_processed report = 12%nat.
Proof. eexists _, _. split; [reflexivity|]. vm_compute. reflexivity. Qed.

(** [test_adding_custom_filter] *)
Example test_adding_custom_filter :
  exists out report,
    Pipeline.process_spectrums
      (Pipeline.add_custom_filter minimal_processor nonsense_inchikey None) spectrums
    = inr (out, report)
    /\ Pipeline.counter_number_processed report = 3%nat
    /\ Pipeline.counter_changed_field report = {[ "make_charge_int" := 2%nat ]}
    /\ Pipeline.counter_added_field report
       = <["interpret_pepmass" := 3%nat]>
           (<["derive_ionmode" := 3%nat]> {[ "nonsense_inchikey" := 3%nat ]})
    /\ map (fun s => field s "inchikey") out
       = [VStr "NONSENSE"; VStr "NONSENSE"; VStr "NONSENSE"].
Proof. eexists _, _. split; [reflexivity|]. vm_compute. repeat split. Qed.

(** [test_add_filter_with_matchms_filter]: no spectrum of the fixture
    survives [require_correct_ionmode]. *)
Example test_add_filter_with_matchms_filter :
  exists p report,
    Pipeline.add_filter minimal_processor
      (Pipeline.StepNameParams "require_correct_ionmode"
         (<["ion_mode_to_keep" := VStr "both"]> ∅)) = inr p
    /\ Pipeline.process_spectrums p spectrums = inr ([], report)
    /\ Pipeline.count (Pipeline.counter_removed_spectrums report) "require_correct_ionmode"
       = 3%nat.
Proof. eexists _, _. split; [reflexivity|]. split; [reflexivity|]. reflexivity. Qed.

(** [test_incomplete_parameters] *)
Example test_incomplete_parameters :
  Pipeline.add_filter (Pipeline.mkProcessor [] []) (Pipeline.StepName "require_correct_ionmode")
  = inl (Pipeline.Raised "AssertionError" "Missing parameters for require_correct_ionmode").
Proof. reflexivity. Qed.

(** ** Remarks on the mass derivation *)

(** A charge that is still a text, as in the fixture before
    [make_charge_int], is "valid" for [_is_valid_charge]; the proton
    correction then raises. *)
Example text_charge_raises :
  out (derive_parent_mass_from_precursor_mz
         (Some (with_metadata (<["charge" := VStr "+1"]>
                               (<["precursor_mz" := VNum 100]> ∅)))) false)
  = Raise TypeError.
Proof. reflexivity. Qed.

(** Without [estimate_from_adduct] the parent mass of a sodium adduct is
    derived from the charge, and the way back, which always estimates from
    the adduct, does not return to the precursor m/z. *)
Example round_trip_needs_same_path :
  exists pm r,
    out (derive_parent_mass_from_precursor_mz (Some sample_sodium) false)
    = Return (VNum pm)
    /\ out (derive_precursor_mz_from_parent_mass
              (Some (Spectrum_set sample_sodium "parent_mass" (VNum pm))))
       = Return (VNum r)
    /\ ~ (r == 300)%Q.
Proof. eexists _, _. split; [reflexivity|]. split; [reflexivity|]. vm_compute. discriminate. Qed.

(** * The further properties on the sample data *)



Lemma missing_field_is_soft_failure_witness :
  derive_parent_mass_from_precursor_mz (Some sample_dimer_parent) true
  = ([EvGet "precursor_mz"; EvLog WARNING "Missing precursor m/z to derive parent mass." []],
     Return VNone)
  /\ derive_precursor_mz_from_parent_mass (Some sample_doubly_charged)
     = ([EvGet "parent_mass"; EvLog WARNING "Missing parent mass to derive precursor mz." []],
        Return VNone).
Proof.
  split.
  - apply (proj1 (missing_field_is_soft_failure sample_dimer_parent true)). reflexivity.
  - apply (proj2 (missing_field_is_soft_failure sample_doubly_charged true)). reflexivity.
Defined.

Lemma estimate_flag_without_adduct_witness :
  out (derive_parent_mass_from_precursor_mz (Some sample_doubly_charged) true)
  = out (derive_parent_mass_from_precursor_mz (Some sample_doubly_charged) false).
Proof.
  apply (estimate_flag_without_adduct sample_doubly_charged).
  exact sample_doubly_charged_unresolved.
Defined.

Lemma text_charge_raises_type_error_witness :
  out (derive_parent_mass_from_precursor_mz (Some sample_text_charge) false) = Raise TypeError
  /\ out (derive_precursor_mz_from_parent_mass (Some sample_text_charge)) = Raise TypeError.
Proof.
  destruct (text_charge_raises_type_error sample_text_charge false "+1" eq_refl)
    as [Hparent Hprecursor].
  split.
  - apply Hparent; [discriminate|left; reflexivity].
  - apply Hprecursor; [discriminate|]. intros m c Hr. vm_compute in Hr. discriminate Hr.
Defined.

(** 200 in negative mode: 200 + PROTON_MASS. *)
Lemma parent_mass_from_ionmode_witness :
  exists r,
    out (derive_parent_mass_from_precursor_mz (Some sample_negative_mode) false)
    = Return (VNum r)
    /\ (r == 200 + PROTON_MASS)%Q.
Proof.
  refine (proj1 (proj2 (parent_mass_from_ionmode sample_negative_mode false 200 _ _ _)) _).
  - reflexivity.
  - reflexivity.
  - left. reflexivity.
  - reflexivity.
Defined.


Lemma derivations_read_four_fields_witness :
  derive_parent_mass_from_precursor_mz (Some sample_dimer) true
  = derive_parent_mass_from_precursor_mz (Some sample_dimer_with_peaks) true.
Proof.
  apply (proj1 (derivations_read_four_fields sample_dimer sample_dimer_with_peaks true
                  eq_refl eq_refl eq_refl)).
  reflexivity.
Defined.

(** "[2M+H]+" is the third row of the sample table. *)
Lemma adduct_lookup_first_row_witness :
  out (_get_multiplier_and_correction_mass_from_adduct (VStr "[2M+H]+"))
  = Return (VNum 2, VNum (1007276 # 1000000)).
Proof.
  apply (adduct_lookup_first_row (VStr "[2M+H]+") "[2M+H]+"
           [mkAdduct "[M+H]+" 1 (1007276 # 1000000); mkAdduct "[M+Na]+" 1 (22989218 # 1000000)]
           [mkAdduct "[M-H]-" 1 (- (1007276 # 1000000))]
           (mkAdduct "[2M+H]+" 2 (1007276 # 1000000))).
  - reflexivity.
  - reflexivity.
  - reflexivity.
  - repeat constructor; discriminate.
Defined.

(** A potassium adduct and no adduct at all get the same answer. *)
Lemma adduct_lookup_outside_table_witness :
  out (_get_multiplier_and_correction_mass_from_adduct (VStr "[M+K]+"))
  = out (_get_multiplier_and_correction_mass_from_adduct VNone)
  /\ last (trace (_get_multiplier_and_correction_mass_from_adduct (VStr "[M+K]+")))
     = Some (EvCall "get_multiplier_and_mass_from_adduct" [VStr "adduct"]).
Proof.
  apply (adduct_lookup_outside_table (VStr "[M+K]+") VNone); reflexivity.
Defined.

Lemma require_annotation_returns_its_input_witness :
  out (require_annotation (Some annotated_methane)) = Return (Some annotated_methane)
  /\ annotated_methane = annotated_methane.
Proof.
  split; [reflexivity|].
  apply (require_annotation_returns_its_input annotated_methane annotated_methane).
  reflexivity.
Defined.

Lemma require_annotation_ignores_key_suffix_witness :
  verdict_of (out (require_annotation
                     (Some (Spectrum_set annotated_methane "inchikey"
                              (VStr methane_inchikey_variant)))))
  = verdict_of (out (require_annotation (Some annotated_methane))).
Proof.
  apply (require_annotation_ignores_key_suffix annotated_methane methane_inchikey
           methane_inchikey_variant); reflexivity.
Defined.

Lemma require_annotation_failed_conversion_raises_witness :
  out (@require_annotation failing_conversion (Some annotated_methane)) = Raise TypeError
  /\ log_records (trace (@require_annotation failing_conversion (Some annotated_methane)))
     = 0%nat.
Proof.
  apply (@require_annotation_failed_conversion_raises failing_conversion annotated_methane).
  - reflexivity.
  - reflexivity.
  - reflexivity.
  - intros t. discriminate.
Defined.

Lemma require_annotation_reads_three_fields_witness :
  verdict_of (out (require_annotation (Some annotated_methane)))
  = verdict_of (out (require_annotation (Some annotated_methane_with_peaks)))
  /\ trace (require_annotation (Some annotated_methane))
     = trace (require_annotation (Some annotated_methane_with_peaks)).
Proof.
  apply (require_annotation_reads_three_fields annotated_methane
           annotated_methane_with_peaks); reflexivity.
Defined.

Lemma load_from_usi_transport_witness :
  @Usi.load_from_usi (sample_importer (Usi.mkResponse 404 (Some (Usi.JDict sample_document))))
    sample_usi Usi.default_server
  = ([Usi.HttpGet
        "https://metabolomics-usi.ucsd.edu/json/?usi=mzspec:MASSBANK::accession:SM858102"],
     inr None)
  /\ @Usi.load_from_usi (sample_importer (Usi.mkResponse 500 None))
       sample_usi Usi.default_server
     = ([Usi.HttpGet
           "https://metabolomics-usi.ucsd.edu/json/?usi=mzspec:MASSBANK::accession:SM858102";
         Usi.Log WARNING "Failed to unpack json (JSONDecodeError)."],
        inr None).
Proof.
  split.
  - apply (proj1 (proj2 (@load_from_usi_transport
             (sample_importer (Usi.mkResponse 404 (Some (Usi.JDict sample_document))))
             sample_usi Usi.default_server))
             (Usi.mkResponse 404 (Some (Usi.JDict sample_document)))); reflexivity.
  - apply (proj2 (proj2 (@load_from_usi_transport
             (sample_importer (Usi.mkResponse 500 None))
             sample_usi Usi.default_server)) (Usi.mkResponse 500 None));
      [reflexivity|discriminate|reflexivity].
Defined.

Lemma load_from_usi_no_data_witness :
  @Usi.load_from_usi
    (sample_importer (Usi.mkResponse 200 (Some (Usi.JDict [("n_peaks", Usi.JNum 0)]))))
    sample_usi Usi.default_server
  = ([Usi.HttpGet
        "https://metabolomics-usi.ucsd.edu/json/?usi=mzspec:MASSBANK::accession:SM858102";
      Usi.Log INFO "Empty spectrum found (no data found). Will not be imported."],
     inr None).
Proof.
  apply (proj1 (@load_from_usi_no_data
           (sample_importer (Usi.mkResponse 200 (Some (Usi.JDict [("n_peaks", Usi.JNum 0)]))))
           sample_usi Usi.default_server
           (Usi.mkResponse 200 (Some (Usi.JDict [("n_peaks", Usi.JNum 0)])))
           eq_refl ltac:(discriminate))).
  right. eexists. split; reflexivity.
Defined.

(** The third item of the second row is dropped. *)
Lemma load_from_usi_builds_spectrum_witness :
  @Usi.load_from_usi (sample_importer (Usi.mkResponse 200 (Some (Usi.JDict sample_document))))
    sample_usi Usi.default_server
  = ([Usi.HttpGet
        "https://metabolomics-usi.ucsd.edu/json/?usi=mzspec:MASSBANK::accession:SM858102"],
     inr (Some (mkSpectrum [100%Q; 200%Q] [1%Q; (1 # 2)%Q]
                  (<["usi" := VStr sample_usi]>
                   (<["server" := VStr Usi.default_server]>
                    (<["precursor_mz" := VNum 300]> ∅)))))).
Proof.
  rewrite (@load_from_usi_builds_spectrum
             (sample_importer (Usi.mkResponse 200 (Some (Usi.JDict sample_document))))
             sample_usi Usi.default_server
             (Usi.mkResponse 200 (Some (Usi.JDict sample_document)))
             sample_document
             [ [Usi.JNum 100; Usi.JNum 1]; [Usi.JNum 200; Usi.JNum (1 # 2); Usi.JNum 7] ]).
  - reflexivity.
  - reflexivity.
  - discriminate.
  - reflexivity.
  - reflexivity.
  - repeat constructor.
  - apply Exists_cons_hd. reflexivity.
Defined.

Lemma load_from_usi_misshapen_peaks_witness :
  @Usi.load_from_usi
    (sample_importer (Usi.mkResponse 200 (Some (Usi.JDict [("peaks", Usi.JNull)]))))
    sample_usi Usi.default_server
  = ([Usi.HttpGet
        "https://metabolomics-usi.ucsd.edu/json/?usi=mzspec:MASSBANK::accession:SM858102"],
     inl Usi.PyTypeError)
  /\ @Usi.load_from_usi
       (sample_importer
          (Usi.mkResponse 200
             (Some (Usi.JDict [("peaks", Usi.JList [Usi.JList [Usi.JNum 100]])]))))
       sample_usi Usi.default_server
     = ([Usi.HttpGet
           "https://metabolomics-usi.ucsd.edu/json/?usi=mzspec:MASSBANK::accession:SM858102"],
        inl Usi.PyValueError).
Proof.
  split.
  - apply (proj1 (@load_from_usi_misshapen_peaks
             (sample_importer (Usi.mkResponse 200 (Some (Usi.JDict [("peaks", Usi.JNull)]))))
             sample_usi Usi.default_server
             (Usi.mkResponse 200 (Some (Usi.JDict [("peaks", Usi.JNull)])))
             [("peaks", Usi.JNull)] Usi.JNull
             eq_refl ltac:(discriminate) eq_refl eq_refl)).
    exact I.
  - apply (proj2 (@load_from_usi_misshapen_peaks
             (sample_importer
                (Usi.mkResponse 200
                   (Some (Usi.JDict [("peaks", Usi.JList [Usi.JList [Usi.JNum 100]])]))))
             sample_usi Usi.default_server
             (Usi.mkResponse 200
                (Some (Usi.JDict [("peaks", Usi.JList [Usi.JList [Usi.JNum 100]])])))
             [("peaks", Usi.JList [Usi.JList [Usi.JNum 100]])]
             (Usi.JList [Usi.JList [Usi.JNum 100]])
             eq_refl ltac:(discriminate) eq_refl eq_refl)
             [[Usi.JNum 100]]).
    + reflexivity.
    + discriminate.
    + left. apply Exists_cons_hd. cbn. lia.
Defined.

(** The known steps of the sample configuration: the custom filters do not
    show, and [require_correct_ionmode] comes last. *)
Lemma processing_steps_in_catalog_order_witness :
  exists p,
    Pipeline.configure minimal_processor sample_calls = inr p
    /\ map Pipeline.step_name (Pipeline.processing_steps p)
       = ["make_charge_int"; "interpret_pepmass"; "derive_ionmode"; "correct_charge";
          "require_correct_ionmode"]
    /\ in_catalog_order (Pipeline.processing_steps p)
    /\ map Pipeline.bound_name (Pipeline.filters p)
       = map Pipeline.step_name (Pipeline.processing_steps p)
         ++ map Pipeline.bound_name (Pipeline.custom_filters p).
Proof.
  eexists. split; [reflexivity|]. split; [reflexivity|].
  apply (processing_steps_in_catalog_order (Some "minimal") minimal_processor sample_calls);
    reflexivity.
Defined.

(** The fixture through "minimal" and [require_correct_ionmode]: three
    processed, none returned, three removals. *)
Lemma process_spectrums_accounts_for_every_spectrum_witness :
  Pipeline.add_filter minimal_processor
    (Pipeline.StepNameParams "require_correct_ionmode"
       (<["ion_mode_to_keep" := VStr "both"]> ∅)) = inr ionmode_processor
  /\ exists out report,
       Pipeline.process_spectrums ionmode_processor spectrums = inr (out, report)
       /\ Pipeline.counter_number_processed report = length spectrums
       /\ (length out + total (Pipeline.counter_removed_spectrums report))%nat
          = length spectrums.
Proof.
  split; [reflexivity|]. eexists _, _. split; [reflexivity|].
  apply (process_spectrums_accounts_for_every_spectrum ionmode_processor spectrums).
  reflexivity.
Defined.
